(** * bmfont2c: BMFont bitmap fonts to C byte tables

    A shallow embedding of [bmfont2c.py] and the verification of its glyph
    rasterizer ([Glyph.makeBitmapCode]) and of its table builders
    ([makeBitmapsTable], [makeWidthsTable], [makeBitmapsOffsetTable],
    [makeFontSource], [processConfig]).

    Python integers are unbounded, hence [Z].  The script builds its output
    by appending to a string; here that string is a list of [item]s, one per
    appended piece, and [render] gives back the text.  The global
    [total_ram], the lines printed, the files written and the pixels read
    from the sheet image live in a [world] that a small state-and-exception
    monad threads through the code. *)

From Stdlib Require Import ZArith String Ascii List Lia HexadecimalString.
From stdpp Require Import base tactics option list list_numbers gmap sets strings pretty.

Local Open Scope Z_scope.

(** ** Python run-time model *)

Module Py.

(** The exceptions the modelled code can raise: [glyphs[0]] on an empty
    list and an image access refused by the imaging library give
    [IndexError]; [chr] outside the code-point range gives [ValueError]. *)
Inductive exn := IndexError | ValueError.

Inductive result (A : Type) :=
| Ok (a : A)
| Raise (e : exn).
Arguments Ok {A} a.
Arguments Raise {A} e.

(** What a run can change or emit: the module-level counter [total_ram],
    the lines given to [print], the coordinates handed to [img.getpixel]
    (oldest first) and the files written. *)
Record world := World {
  total_ram : Z;
  stdout : list string;
  reads : list (Z * Z);
  files : list (string * string)
}.

Definition M (A : Type) : Type := world -> result A * world.

Definition ret {A} (a : A) : M A := fun w => (Ok a, w).

Definition bind {A B} (m : M A) (k : A -> M B) : M B :=
  fun w => match m w with
           | (Ok a, w') => k a w'
           | (Raise e, w') => (Raise e, w')
           end.

Definition raise {A} (e : exn) : M A := fun w => (Raise e, w).

Definition get_total_ram : M Z := fun w => (Ok (total_ram w), w).

Definition set_total_ram (n : Z) : M unit :=
  fun w => (Ok tt, World n (stdout w) (reads w) (files w)).

Definition print (s : string) : M unit :=
  fun w => (Ok tt, World (total_ram w) (stdout w ++ [s]) (reads w) (files w)).

Definition write_file (name content : string) : M unit :=
  fun w => (Ok tt, World (total_ram w) (stdout w) (reads w)
                         (files w ++ [(name, content)])).

(** Appending to the log of image accesses. *)
Definition add_reads (tr : list (Z * Z)) (w : world) : world :=
  World (total_ram w) (stdout w) (reads w ++ tr) (files w).

End Py.

Import Py.

Declare Scope py_scope.
Delimit Scope py_scope with py.
Notation "x <- c1 ;; c2" := (bind c1 (fun x => c2))
  (at level 100, c1 at next level, right associativity) : py_scope.
Notation "c1 ;;; c2" := (bind c1 (fun _ => c2))
  (at level 100, right associativity) : py_scope.
Local Open Scope py_scope.

(** [for b in l: a = f(a, b)], the loop-carried variables being [a]. *)
Fixpoint foldM {A B} (f : A -> B -> M A) (l : list B) (a : A) : M A :=
  match l with
  | [] => ret a
  | b :: l' => a' <- f a b ;; foldM f l' a'
  end.

(** [range(a, b)]. *)
Definition range (a b : Z) : list Z := seqZ a (b - a).

(** [chr(i)] (Python 3): a [ValueError] outside [0, 0x110000); a character
    is represented by its code point. *)
Definition chr (i : Z) : M Z :=
  if (0 <=? i) && (i <? 1114112) then ret i else raise ValueError.

(** The sheet image, of a single band: [img x y] is the intensity that
    [img.getpixel((x, y))] returns, [None] when the imaging library refuses
    the access. *)
Definition Image := Z -> Z -> option Z.

Definition getpixel (img : Image) (x y : Z) : M Z :=
  fun w => match img x y with
           | Some v => (Ok v, add_reads [(x, y)] w)
           | None => (Raise IndexError, add_reads [(x, y)] w)
           end.

(** ** The generated text *)

Inductive table := Bitmaps | Widths | Offsets.

(** One piece appended to the output string. *)
Inductive item :=
| Txt (s : string)                (* text without table data *)
| Open (t : table) (s : string)   (* the text that opens the array of [t] *)
| HexByte (b : Z)                 (* ["0x%02x, " % b] *)
| WidthEntry (n : Z)              (* ['%2d, ' % n] *)
| OffsetEntry (n : Z).            (* ['{: 2}, '.format(n)]; ['-1, '] is [OffsetEntry (-1)] *)

Definition nl : string := String (ascii_of_nat 10) EmptyString.
Definition dquote : string := String (ascii_of_nat 34) EmptyString.

Fixpoint replicate_char (n : nat) (c : ascii) : string :=
  match n with
  | O => EmptyString
  | S n' => String c (replicate_char n' c)
  end.

Definition pad_left (c : ascii) (n : nat) (s : string) : string :=
  replicate_char (n - String.length s) c +:+ s.

(** [%d] and [%u] *)
Definition fmt_d (z : Z) : string := pretty z.
(** [%2d] *)
Definition fmt_2d (z : Z) : string := pad_left " " 2 (pretty z).
(** [{: 2}] *)
Definition fmt_sp2 (z : Z) : string :=
  pad_left " " 2 (if 0 <=? z then " " +:+ pretty z else pretty z).
(** [%02x] *)
Definition hex_digits (n : N) : string :=
  HexadecimalString.NilZero.string_of_uint (N.to_hex_uint n).
Definition fmt_02x (z : Z) : string :=
  if 0 <=? z then pad_left "0" 2 (hex_digits (Z.to_N z))
  else "-" +:+ pad_left "0" 1 (hex_digits (Z.to_N (- z))).

Definition render_item (i : item) : string :=
  match i with
  | Txt s => s
  | Open _ s => s
  | HexByte b => "0x" +:+ fmt_02x b +:+ ", "
  | WidthEntry n => fmt_2d n +:+ ", "
  | OffsetEntry n => fmt_sp2 n +:+ ", "
  end.

Definition render (s : list item) : string :=
  fold_right (fun i acc => render_item i +:+ acc) EmptyString s.

(** The data carried by the text. *)
Definition bytes_of (s : list item) : list Z :=
  omap (fun i => match i with HexByte b => Some b | _ => None end) s.
Definition widths_of (s : list item) : list Z :=
  omap (fun i => match i with WidthEntry n => Some n | _ => None end) s.
Definition offsets_of (s : list item) : list Z :=
  omap (fun i => match i with OffsetEntry n => Some n | _ => None end) s.
Definition opens (t : table) (s : list item) : bool :=
  existsb (fun i => match i, t with
                    | Open Bitmaps _, Bitmaps
                    | Open Widths _, Widths
                    | Open Offsets _, Offsets => true
                    | _, _ => false
                    end) s.

Definition datatype : string := "uint8_t".
Definition extra_bitmap_type_specifier : string := "".

(** ** class Glyph *)

Module Glyph.

(** The attributes read from a [char] element of the font description. *)
Record t := Make {
  id : Z;
  x : Z;
  y : Z;
  width : Z;
  height : Z;
  xoffset : Z;
  yoffset : Z;
  xadvance : Z
}.

(** The variables carried by the loop over the columns of one row. *)
Record row := Row {
  comment : string;
  bytestring : list item;
  byte : Z;
  mask : Z
}.

(** The value of [pixel] for target column [x] of target row [y]: the
    sheet is sampled only when the source coordinate is inside the glyph. *)
Definition sample (self : t) (img : Image) (crop_x crop_y y x : Z) : M Z :=
  let use_x := x - xoffset self + crop_x in
  let use_y := y - yoffset self + crop_y in
  if (0 <=? use_x) && (use_x <? width self) && (0 <=? use_y) && (use_y <? height self)
  then v <- getpixel img (use_x + Glyph.x self) (use_y + Glyph.y self) ;;
       ret (if 127 <? v then 1 else 0)
  else ret 0.

(** The rest of the loop body, from [if pixel != 0] on. *)
Definition put (self : t) (r : row) (x pixel : Z) : row :=
  let r1 :=
    if negb (pixel =? 0)
    then Row (comment r +:+ "O") (bytestring r) (Z.lor (byte r) (mask r)) (mask r)
    else if xadvance self <=? x
         then Row (comment r +:+ ".") (bytestring r) (byte r) (mask r)
         else Row (comment r +:+ "-") (bytestring r) (byte r) (mask r) in
  let mask' := mask r1 / 2 in
  if mask' =? 0
  then Row (comment r1) (bytestring r1 ++ [HexByte (byte r1)]) 0 128
  else Row (comment r1) (bytestring r1) (byte r1) mask'.

Definition column (self : t) (img : Image) (crop_x crop_y y : Z)
    (r : row) (x : Z) : M row :=
  pixel <- sample self img crop_x crop_y y x ;;
  ret (put self r x pixel).

(** The bytes of a finished row: [if mask != 128] the started byte is
    appended too. *)
Definition flush (r : row) : list item :=
  if negb (mask r =? 128) then bytestring r ++ [HexByte (byte r)]
  else bytestring r.

Definition makeBitmapCode (self : t) (img : Image)
    (width height crop_x crop_y : Z) : M (list item) :=
  let s := [Txt (nl +:+ "    // ASCII: " +:+ fmt_d (id self) +:+
                 ", char width: " +:+ fmt_d (xadvance self))] in
  s <- foldM (fun s y =>
                r <- foldM (column self img crop_x crop_y y)
                           (range 0 width) (Row "" [] 0 128) ;;
                ret (s ++ [Txt (nl +:+ "    ")] ++ flush r ++
                     [Txt (" // " +:+ comment r)]))
             (range 0 height) s ;;
  ret (s ++ [Txt nl]).

Definition makeWidthCode (self : t) : list item := [WidthEntry (xadvance self)].

End Glyph.

(** ** class Config *)

Module Config.

(** A [FontN] section of the configuration file.  [Strings] holds the
    lines of the file the option names, each a list of code points, and is
    [None] when the option is missing; so is [FixedWidth]. *)
Record section := Section {
  InputFile : string;
  CFontName : string;
  FirstAscii : Z;
  LastAscii : Z;
  BytesWidth : Z;
  BytesHeight : Z;
  CropX : Z;
  CropY : Z;
  Strings : option (list (list Z));
  FixedWidth : option Z
}.

Record t := Make {
  font_input : string;
  c_fontname : string;
  first_ascii : Z;
  last_ascii : Z;
  bytes_width : Z;
  bytes_height : Z;
  crop_x : Z;
  crop_y : Z;
  chars : option (gset Z);
  fixed_width : Z
}.

End Config.

(** [set(''.join(strings).replace('\n', ''))] *)
Definition loadStringsCharSet (strings : list (list Z)) : gset Z :=
  list_to_set (filter (fun c => c ≠ 10) (mjoin strings)).

(** [Config.__init__] *)
Definition Config_init (sec : Config.section) : Config.t :=
  Config.Make (Config.InputFile sec) (Config.CFontName sec)
    (Config.FirstAscii sec) (Config.LastAscii sec)
    (Config.BytesWidth sec) (Config.BytesHeight sec)
    (Config.CropX sec) (Config.CropY sec)
    (match Config.Strings sec with
     | Some strings_file => Some (loadStringsCharSet strings_file)
     | None => None
     end)
    (match Config.FixedWidth sec with
     | Some n => n
     | None => 0
     end).

(** Truth value of [config.chars]: [None] and the empty set are false. *)
Definition truthy (chars : option (gset Z)) : bool :=
  match chars with
  | Some cs => bool_decide (cs ≠ ∅)
  | None => false
  end.

(** [char in config.chars], evaluated only when [config.chars] is true. *)
Definition contains (chars : option (gset Z)) (char : Z) : bool :=
  match chars with
  | Some cs => bool_decide (char ∈ cs)
  | None => false
  end.

(** [glyphs[0]] *)
Definition first_glyph (glyphs : list Glyph.t) : M Glyph.t :=
  match glyphs with
  | g :: _ => ret g
  | [] => raise IndexError
  end.

(** The scan [for glyph in glyphs: if glyph.id == ascii: ... break]. *)
Definition find_glyph (glyphs : list Glyph.t) (ascii : Z) : option Glyph.t :=
  find (fun glyph => Glyph.id glyph =? ascii) glyphs.

(** ** The table builders *)

Definition makeFontStyleDecl (config : Config.t) : list item :=
  let name := Config.c_fontname config in
  [Txt (nl +:+ "fontStyle_t FontStyle_" +:+ name +:+ " = " +:+ nl);
   Txt ("{" +:+ nl);
   Txt ("    " +:+ fmt_d (Config.last_ascii config - Config.first_ascii config + 1)
          +:+ ", // Glyph count" +:+ nl);
   Txt ("    " +:+ fmt_d (Config.first_ascii config) +:+ ", // First ascii code" +:+ nl);
   Txt ("    " +:+ fmt_d (Config.bytes_width config) +:+ ", // Glyph width (bytes)" +:+ nl);
   Txt ("    " +:+ fmt_d (Config.bytes_height config) +:+ ", // Glyph height (bytes)" +:+ nl);
   Txt ("    " +:+ fmt_d (Config.fixed_width config)
          +:+ ", // Fixed width or 0 if variable" +:+ nl);
   Txt (if Config.fixed_width config =? 0
        then "    " +:+ name +:+ "_Widths," +:+ nl
        else "    (void*)0," +:+ nl);
   Txt ("    " +:+ name +:+ "_Bitmaps," +:+ nl);
   Txt (if truthy (Config.chars config)
        then "    " +:+ name +:+ "_Offsets" +:+ nl
        else "    (void*)0," +:+ nl);
   Txt ("};" +:+ nl)].

Definition makeFontStyleHeader (config : Config.t) : list item :=
  [Txt (nl +:+ "extern fontStyle_t FontStyle_" +:+ Config.c_fontname config +:+ ";")].

(** Loop state of [makeBitmapsOffsetTable]: the text, [i] and [n]. *)
Definition makeBitmapsOffsetTable (config : Config.t) : M (list item) :=
  let s := [Open Offsets (nl +:+ "int8_t " +:+ Config.c_fontname config +:+
                          "_Offsets[] = " +:+ nl +:+ "{" +:+ nl +:+ "    ")] in
  r <- foldM (fun '(s, i, n) ascii =>
                char <- chr ascii ;;
                let '(s, n) :=
                  if truthy (Config.chars config) && contains (Config.chars config) char
                  then (s ++ [OffsetEntry n], n + 1)
                  else (s ++ [OffsetEntry (-1)], n) in
                let i := i + 1 in
                let s := if i mod 8 =? 0 then s ++ [Txt (nl +:+ "    ")] else s in
                ret (s, i, n))
             (range (Config.first_ascii config) (Config.last_ascii config + 1))
             (s, 0, 0) ;;
  ret (r.1.1 ++ [Txt (nl +:+ "}" +:+ nl)]).

(** The glyph drawn for [ascii] by [makeBitmapsTable], with the text and
    the message of the substitution when no glyph has that id. *)
Definition resolve_bitmap (glyphs : list Glyph.t) (ascii : Z) (s : list item)
    : M (list item * Glyph.t) :=
  match find_glyph glyphs ascii with
  | Some glyph_found => ret (s, glyph_found)
  | None =>
      print ("INFO: No glyph for ASCII: " +:+ fmt_d ascii +:+ ", using substitute") ;;;
      let s := s ++ [Txt (nl +:+ "    // No glyph for ASCII: " +:+ fmt_d ascii +:+
                          ", using substitute:")] in
      glyph_found <- first_glyph glyphs ;;
      ret (s, glyph_found)
  end.

Definition makeBitmapsTable (config : Config.t) (img : Image)
    (glyphs : list Glyph.t) : M (list item) :=
  let size := (Config.last_ascii config - Config.first_ascii config + 1)
              * Config.bytes_width config * Config.bytes_height config in
  let s := [Open Bitmaps (nl +:+ "static const " +:+ datatype +:+ " " +:+
                          extra_bitmap_type_specifier +:+ " " +:+
                          Config.c_fontname config +:+ "_Bitmaps[] = " +:+ nl +:+ "{")] in
  total <- get_total_ram ;;
  set_total_ram (total + size) ;;;
  s <- foldM (fun s ascii =>
                char <- chr ascii ;;
                if truthy (Config.chars config) && negb (contains (Config.chars config) char)
                then ret s
                else
                  r <- resolve_bitmap glyphs ascii s ;;
                  code <- Glyph.makeBitmapCode r.2 img
                            (Config.bytes_width config * 8) (Config.bytes_height config)
                            (Config.crop_x config) (Config.crop_y config) ;;
                  ret (r.1 ++ code))
             (range (Config.first_ascii config) (Config.last_ascii config + 1)) s ;;
  ret (s ++ [Txt ("};" +:+ nl)]).

(** The glyph whose width is listed for [ascii] by [makeWidthsTable]. *)
Definition resolve_width (glyphs : list Glyph.t) (ascii : Z) : M Glyph.t :=
  match find_glyph glyphs ascii with
  | Some glyph_found => ret glyph_found
  | None => first_glyph glyphs
  end.

(** Loop state of [makeWidthsTable]: the text and [i]. *)
Definition makeWidthsTable (config : Config.t) (glyphs : list Glyph.t)
    : M (list item) :=
  let count := Config.last_ascii config - Config.first_ascii config + 1 in
  let s := [Open Widths (nl +:+ datatype +:+ " " +:+ Config.c_fontname config +:+
                         "_Widths[" +:+ fmt_d count +:+ "] = " +:+ nl +:+ "{")] in
  total <- get_total_ram ;;
  set_total_ram (total + count) ;;;
  r <- foldM (fun '(s, i) ascii =>
                char <- chr ascii ;;
                if truthy (Config.chars config) && negb (contains (Config.chars config) char)
                then ret (s, i)
                else
                  glyph_found <- resolve_width glyphs ascii ;;
                  let s := if i =? 0 then s ++ [Txt (nl +:+ "    ")] else s in
                  let i := (i + 1) mod 8 in
                  ret (s ++ Glyph.makeWidthCode glyph_found, i))
             (range (Config.first_ascii config) (Config.last_ascii config + 1))
             (s, 0) ;;
  ret (r.1 ++ [Txt (nl +:+ "};" +:+ nl)]).

(** What [loadFont] obtains from the files [config.font_input] names: the
    [file] attribute of page 0, the image in that file and the glyphs of the
    [char] elements, in document order. *)
Record FontFile := {
  page_file : string;
  page_image : Image;
  char_glyphs : list Glyph.t
}.

Definition loadFont (config : Config.t) (font : FontFile)
    : M (Image * list Glyph.t) :=
  print ("Reading font description: " +:+ Config.font_input config) ;;;
  print ("Reading font bitmap: " +:+ page_file font) ;;;
  ret (page_image font, char_glyphs font).

Definition makeFontSource (config : Config.t) (font : FontFile) : M (list item) :=
  r <- loadFont config font ;;
  let '(img, glyphs) := r in
  source <- makeBitmapsTable config img glyphs ;;
  source <- (if Config.fixed_width config =? 0
             then t <- makeWidthsTable config glyphs ;; ret (source ++ t)
             else ret source) ;;
  source <- (if truthy (Config.chars config)
             then t <- makeBitmapsOffsetTable config ;; ret (source ++ t)
             else ret source) ;;
  ret (source ++ makeFontStyleDecl config).

(** ** processConfig *)

(** [header_start.format(datatype=datatype)] *)
Definition header_start : string :=
  nl +:+ "//" +:+ nl +:+
  "// Bitmap font C header file generated by bmfont2c.py" +:+ nl +:+
  "//" +:+ nl +:+ nl +:+
  "#ifndef FONTLIBRARY_H_" +:+ nl +:+
  "#define FONTLIBRARY_H_" +:+ nl +:+ nl +:+
  "#include <stdint.h>" +:+ nl +:+ nl +:+
  "typedef struct" +:+ nl +:+
  "{" +:+ nl +:+
  "    " +:+ datatype +:+ " GlyphCount;" +:+ nl +:+
  "    " +:+ datatype +:+ " FirstAsciiCode;" +:+ nl +:+
  "    " +:+ datatype +:+ " GlyphBytesWidth;" +:+ nl +:+
  "    " +:+ datatype +:+ " GlyphHeight;" +:+ nl +:+
  "    " +:+ datatype +:+ " FixedWidth;" +:+ nl +:+
  "    " +:+ datatype +:+ " const *GlyphWidth;" +:+ nl +:+
  "    " +:+ datatype +:+ " const *GlyphBitmaps;" +:+ nl +:+
  "    " +:+ datatype +:+ " const *GlyphOffsets;" +:+ nl +:+
  "} fontStyle_t;" +:+ nl +:+ nl.

Definition header_end : string :=
  nl +:+ nl +:+ "#endif /* FONTLIBRARY_H_ */" +:+ nl.

Definition source_start : string :=
  nl +:+ "//" +:+ nl +:+
  "// Bitmap font C source generated by bmfont2c.py" +:+ nl +:+
  "//" +:+ nl +:+ nl +:+
  "#include <stdint.h>" +:+ nl +:+
  "#include <stdlib.h>" +:+ nl.

(** The parsed configuration file: the [General] section and the sections
    [Font1], [Font2], ... up to the first missing number, each with the font
    its [InputFile] names. *)
Record ConfigFile := {
  OutputHeader : string;
  OutputSource : string;
  Fonts : list (Config.section * FontFile)
}.

Definition processConfig (cfg : ConfigFile) : M unit :=
  let output_header := OutputHeader cfg in
  let output_source := OutputSource cfg in
  let header := [Txt header_start] in
  let source := [Txt source_start] in
  let source := source ++ [Txt ("#include " +:+ dquote +:+ output_header +:+ dquote +:+ nl)] in
  set_total_ram 0 ;;;
  r <- foldM (fun '(source, header) '(sec, font) =>
                let config := Config_init sec in
                t <- makeFontSource config font ;;
                ret (source ++ t, header ++ makeFontStyleHeader config))
             (Fonts cfg) (source, header) ;;
  let '(source, header) := r in
  let header := header ++ [Txt header_end] in
  total <- get_total_ram ;;
  print ("INFO: Font tables use: " +:+ fmt_d total +:+ " bytes") ;;;
  print ("Writing output: " +:+ output_source) ;;;
  write_file output_source (render source) ;;;
  print ("Writing output: " +:+ output_header) ;;;
  write_file output_header (render header).

(** ** Running the model on the end-to-end example of the documentation *)

Module Demo.

Definition w0 : world := World 0 [] [] [].

(** A 3x2 sheet whose pixel (0,0) has intensity 200; every other pixel of
    the sheet is dark, and accesses outside the sheet are refused. *)
Definition sheet : Image := fun x y =>
  if (0 <=? x) && (x <? 3) && (0 <=? y) && (y <? 2)
  then Some (if (x =? 0) && (y =? 0) then 200 else 10)
  else None.

Definition glyphA : Glyph.t := Glyph.Make 65 0 0 1 1 0 0 5.
Definition glyphB : Glyph.t := Glyph.Make 66 1 0 2 2 0 0 6.
Definition glyphC : Glyph.t := Glyph.Make 67 0 1 1 1 0 0 7.

Definition font : FontFile := Build_FontFile "page.png" sheet [glyphA; glyphB; glyphC].

Definition cfgA : Config.t := Config.Make "a.fnt" "F" 65 65 1 1 0 0 None 0.

(** Range 65..67 in 1x1 cells, variable width; the strings file holds the
    lines ["A\n"] and ["C\n"]. *)
Definition secAC : Config.section :=
  Config.Section "a.fnt" "F" 65 67 1 1 0 0 (Some [[65; 10]; [67; 10]]) None.

(** The same with a strings file holding one empty line. *)
Definition secEmpty : Config.section :=
  Config.Section "a.fnt" "F" 65 67 1 1 0 0 (Some [[10]]) None.

(** The same without the [Strings] option. *)
Definition secAll : Config.section :=
  Config.Section "a.fnt" "F" 65 67 1 1 0 0 None None.

(** Range 65..68: no glyph has id 68. *)
Definition cfgAD : Config.t := Config.Make "a.fnt" "F" 65 68 1 1 0 0 None 0.

Definition subset_file : ConfigFile := Build_ConfigFile "f.h" "f.c" [(secAC, font)].

End Demo.

(** ** Reasoning about runs *)

(** The change a run makes when it only prints [out] and samples [tr]. *)
Definition emit (out : list string) (tr : list (Z * Z)) (w : world) : world :=
  World (total_ram w) (stdout w ++ out) (reads w ++ tr) (files w).

(** [runs m r out tr]: from every world, [m] ends with [r] after printing
    [out] and sampling [tr], and changes nothing else. *)
Definition runs {A} (m : M A) (r : result A) (out : list string)
    (tr : list (Z * Z)) : Prop :=
  forall w, m w = (r, emit out tr w).

(** ** The rasterizer as a function

    What [Glyph.makeBitmapCode] computes, read off its loops: the bit of
    every target pixel, the row states, the text and the sheet accesses.
    [makeBitmapCode_runs] proves that the code computes them. *)

Module Raster.

Section Cell.
Variables (g : Glyph.t) (img : Image) (crop_x crop_y : Z).

(** The guard of [Glyph.sample]. *)
Definition inside (y x : Z) : bool :=
  let use_x := x - Glyph.xoffset g + crop_x in
  let use_y := y - Glyph.yoffset g + crop_y in
  (0 <=? use_x) && (use_x <? Glyph.width g) && (0 <=? use_y) && (use_y <? Glyph.height g).

(** The sheet coordinate sampled for target pixel ([x], [y]). *)
Definition source (y x : Z) : Z * Z :=
  (x - Glyph.xoffset g + crop_x + Glyph.x g, y - Glyph.yoffset g + crop_y + Glyph.y g).

Definition touched (y x : Z) : list (Z * Z) :=
  if inside y x then [source y x] else [].

Definition lit (y x : Z) : Z :=
  if inside y x
  then match img (source y x).1 (source y x).2 with
       | Some v => if 127 <? v then 1 else 0
       | None => 0
       end
  else 0.

Definition row_of (width y : Z) : Glyph.row :=
  fold_left (fun r x => Glyph.put g r x (lit y x)) (range 0 width) (Glyph.Row "" [] 0 128).

Definition line_of (width y : Z) : list item :=
  [Txt (nl +:+ "    ")] ++ Glyph.flush (row_of width y) ++
  [Txt (" // " +:+ Glyph.comment (row_of width y))].

Definition code_of (width height : Z) : list item :=
  [Txt (nl +:+ "    // ASCII: " +:+ fmt_d (Glyph.id g) +:+
        ", char width: " +:+ fmt_d (Glyph.xadvance g))] ++
  mjoin (line_of width <$> range 0 height) ++ [Txt nl].

Definition trace_of (width height : Z) : list (Z * Z) :=
  mjoin ((fun y => mjoin (touched y <$> range 0 width)) <$> range 0 height).

(** The packed bytes of row [y]. *)
Definition row_bytes (width y : Z) : list Z := bytes_of (Glyph.flush (row_of width y)).

End Cell.

(** The imaging library answers every access inside the glyph's rectangle. *)
Definition defined_on (img : Image) (g : Glyph.t) : Prop :=
  forall sx sy, 0 <= sx < Glyph.width g -> 0 <= sy < Glyph.height g ->
    is_Some (img (sx + Glyph.x g) (sy + Glyph.y g)).

(** A sheet coordinate inside the glyph's rectangle. *)
Definition in_glyph (g : Glyph.t) (p : Z * Z) : Prop :=
  Glyph.x g <= p.1 < Glyph.x g + Glyph.width g /\
  Glyph.y g <= p.2 < Glyph.y g + Glyph.height g.

End Raster.

(** Bit [x] of row [y] in a table whose rows take [row_len] bytes, packed
    from the most significant bit down. *)
Definition bit_at (bytes : list Z) (row_len y x : Z) : option bool :=
  (fun b => Z.testbit b (7 - x mod 8)) <$> bytes !! Z.to_nat (y * row_len + x / 8).

(** [charge n] adds [n] to [total_ram]. *)
Definition charge (n : Z) (w : world) : world :=
  World (total_ram w + n) (stdout w) (reads w) (files w).

(** [builds m a n out tr]: from every world, [m] returns [a] after adding
    [n] to [total_ram], printing [out] and sampling [tr]. *)
Definition builds {A} (m : M A) (a : A) (n : Z) (out : list string)
    (tr : list (Z * Z)) : Prop :=
  forall w, m w = (Ok a, charge n (emit out tr w)).

(** ** The tables as functions of the configuration

    What the builders compute for a font, read off their loops;
    [makeBitmapsTable_builds], [makeWidthsTable_builds] and
    [makeBitmapsOffsetTable_runs] prove that the code computes them. *)

Module Build.

Section Font.
Variables (config : Config.t) (img : Image) (glyphs : list Glyph.t).

(** The code points of the configured range, ascending. *)
Definition codes : list Z :=
  range (Config.first_ascii config) (Config.last_ascii config + 1).

(** The test that makes the bitmap and width loops [continue]. *)
Definition excluded (c : Z) : bool :=
  truthy (Config.chars config) && negb (contains (Config.chars config) c).

(** The test that gives a code point an index in the offset table. *)
Definition indexed (c : Z) : bool :=
  truthy (Config.chars config) && contains (Config.chars config) c.

Definition kept (cs : list Z) : list Z := filter (fun c => excluded c = false) cs.

(** The glyph used for [c]: the first with that id, else the first of all. *)
Definition resolved (c : Z) : option Glyph.t :=
  match find_glyph glyphs c with
  | Some g => Some g
  | None => head glyphs
  end.

(** The code of one glyph in the font's cell. *)
Definition cell (g : Glyph.t) : list item :=
  Raster.code_of g img (Config.crop_x config) (Config.crop_y config)
    (Config.bytes_width config * 8) (Config.bytes_height config).

Definition cell_trace (g : Glyph.t) : list (Z * Z) :=
  Raster.trace_of g (Config.crop_x config) (Config.crop_y config)
    (Config.bytes_width config * 8) (Config.bytes_height config).

Definition no_glyph_message (c : Z) : string :=
  "INFO: No glyph for ASCII: " +:+ fmt_d c +:+ ", using substitute".

(** What the bitmap loop appends, prints and samples for code point [c]. *)
Definition bitmap_entry (c : Z) : list item :=
  if excluded c then []
  else (match find_glyph glyphs c with
        | Some _ => []
        | None => [Txt (nl +:+ "    // No glyph for ASCII: " +:+ fmt_d c +:+
                        ", using substitute:")]
        end) ++ from_option cell [] (resolved c).

Definition bitmap_out (c : Z) : list string :=
  if excluded c then []
  else match find_glyph glyphs c with
       | Some _ => []
       | None => [no_glyph_message c]
       end.

Definition bitmap_trace (c : Z) : list (Z * Z) :=
  if excluded c then [] else from_option cell_trace [] (resolved c).

Definition bitmaps_size : Z :=
  (Config.last_ascii config - Config.first_ascii config + 1)
  * Config.bytes_width config * Config.bytes_height config.

Definition bitmaps_text : list item :=
  [Open Bitmaps (nl +:+ "static const " +:+ datatype +:+ " " +:+
                 extra_bitmap_type_specifier +:+ " " +:+
                 Config.c_fontname config +:+ "_Bitmaps[] = " +:+ nl +:+ "{")] ++
  mjoin (bitmap_entry <$> codes) ++ [Txt ("};" +:+ nl)].

(** The bytes of the table entries of the code points [cs]. *)
Definition bytes_for (cs : list Z) : list Z :=
  mjoin ((fun c => bytes_of (from_option cell [] (resolved c))) <$> kept cs).

(** The widths of the table entries of the code points [cs]. *)
Definition widths_for (cs : list Z) : list Z :=
  omap (fun c => Glyph.xadvance <$> resolved c) (kept cs).

(** One turn of the width loop on its state [(s, i)]. *)
Definition width_step (st : list item * Z) (c : Z) : list item * Z :=
  if excluded c then st
  else ((if st.2 =? 0 then st.1 ++ [Txt (nl +:+ "    ")] else st.1) ++
        from_option Glyph.makeWidthCode [] (resolved c),
        (st.2 + 1) mod 8).

Definition widths_count : Z := Config.last_ascii config - Config.first_ascii config + 1.

Definition widths_text : list item :=
  (fold_left width_step codes
     ([Open Widths (nl +:+ datatype +:+ " " +:+ Config.c_fontname config +:+
                    "_Widths[" +:+ fmt_d widths_count +:+ "] = " +:+ nl +:+ "{")], 0)).1
  ++ [Txt (nl +:+ "};" +:+ nl)].

(** One turn of the offset loop on its state [(s, i, n)]. *)
Definition offset_step (st : list item * Z * Z) (c : Z) : list item * Z * Z :=
  let '(s, i, n) := st in
  let '(s, n) := if indexed c then (s ++ [OffsetEntry n], n + 1)
                 else (s ++ [OffsetEntry (-1)], n) in
  let i := i + 1 in
  (if i mod 8 =? 0 then s ++ [Txt (nl +:+ "    ")] else s, i, n).

Definition offsets_text : list item :=
  (fold_left offset_step codes
     ([Open Offsets (nl +:+ "int8_t " +:+ Config.c_fontname config +:+
                     "_Offsets[] = " +:+ nl +:+ "{" +:+ nl +:+ "    ")], 0, 0)).1.1
  ++ [Txt (nl +:+ "}" +:+ nl)].

(** The offsets of the code points [cs], the next dense index being [n]. *)
Fixpoint offsets_from (n : Z) (cs : list Z) : list Z :=
  match cs with
  | [] => []
  | c :: cs' => if indexed c then n :: offsets_from (n + 1) cs'
                else -1 :: offsets_from n cs'
  end.

(** The text of the whole font. *)
Definition font_text : list item :=
  bitmaps_text ++
  (if Config.fixed_width config =? 0 then widths_text else []) ++
  (if truthy (Config.chars config) then offsets_text else []) ++
  makeFontStyleDecl config.

(** What a font adds to [total_ram]. *)
Definition font_size : Z :=
  bitmaps_size + (if Config.fixed_width config =? 0 then widths_count else 0).

End Font.

End Build.

(** [belongs t i]: the piece [i] is plain text or part of the array of [t]. *)
Definition belongs (t : table) (i : item) : bool :=
  match i, t with
  | Txt _, _ => true
  | Open Bitmaps _, Bitmaps | HexByte _, Bitmaps => true
  | Open Widths _, Widths | WidthEntry _, Widths => true
  | Open Offsets _, Offsets | OffsetEntry _, Offsets => true
  | _, _ => false
  end.

(** What the fonts of a configuration file add to [total_ram]. *)
Definition total_size (fonts : list (Config.section * FontFile)) : Z :=
  foldr (fun f acc => Build.font_size (Config_init f.1) + acc) 0 fonts.

(** ** Proof automation *)

(** Closes the goals on the data of another table, by induction on
    [Forall (belongs t)]. *)
Ltac other_table :=
  induction 1 as [|[? | [] ? | ? | ? | ?] s Hi _ IH]; simpl in *;
  try discriminate; try done.

(** ** The other methods of Glyph, and the script's entry point *)

(** [Glyph.printRaw] *)
Definition printRaw (self : Glyph.t) (img : Image) : M unit :=
  print ("id: " +:+ fmt_d (Glyph.id self) +:+ ", width: " +:+ fmt_d (Glyph.width self)
         +:+ ", height: " +:+ fmt_d (Glyph.height self)) ;;;
  print ("xoffset: " +:+ fmt_d (Glyph.xoffset self) +:+ ", yoffset: " +:+
         fmt_d (Glyph.yoffset self) +:+ ", xadvance: " +:+ fmt_d (Glyph.xadvance self)) ;;;
  foldM (fun (_ : unit) y =>
           s <- foldM (fun s x =>
                         v <- getpixel img x y ;;
                         ret (if 127 <? v then s +:+ "1" else s +:+ "0"))
                      (range (Glyph.x self) (Glyph.x self + Glyph.width self)) "" ;;
           print s)
        (range (Glyph.y self) (Glyph.y self + Glyph.height self)) tt.

(** [Glyph.printNormalized] *)
Definition printNormalized (self : Glyph.t) (img : Image)
    (width height crop_x crop_y : Z) : M unit :=
  foldM (fun (_ : unit) y =>
           s <- foldM (fun s x =>
                         let use_x := x - Glyph.xoffset self + crop_x in
                         let use_y := y - Glyph.yoffset self + crop_y in
                         pixel <- (if (0 <=? use_x) && (use_x <? Glyph.width self) &&
                                      (0 <=? use_y) && (use_y <? Glyph.height self)
                                   then v <- getpixel img (use_x + Glyph.x self)
                                                          (use_y + Glyph.y self) ;;
                                        ret (if 127 <? v then "1" else "0")
                                   else ret "0") ;;
                         ret (s +:+ pixel))
                      (range 0 width) "" ;;
           print s)
        (range 0 height) tt.




(** ** More views of the rasterizer *)

(** The image answers every target pixel of the cell that falls inside the
    glyph. *)
Definition answered (g : Glyph.t) (img : Image) (crop_x crop_y width height : Z) : Prop :=
  forall y x, 0 <= y < height -> 0 <= x < width ->
    Raster.inside g crop_x crop_y y x = true ->
    is_Some (img (Raster.source g crop_x crop_y y x).1
                 (Raster.source g crop_x crop_y y x).2).

(** The character of column [x] in the comment of a row. *)
Definition legend_char (g : Glyph.t) (pixel x : Z) : ascii :=
  if negb (pixel =? 0) then "O"%char
  else if Glyph.xadvance g <=? x then "."%char else "-"%char.

(** [m] never changes the files. *)
Definition keeps_files {A} (m : M A) : Prop :=
  forall w, files (m w).2 = files w.


(** ** Views of [processConfig] and of the [__main__] block *)

(** The text [processConfig] writes to the source file when every font is
    built. *)
Definition source_text (cfg : ConfigFile) : list item :=
  [Txt source_start;
   Txt ("#include " +:+ dquote +:+ OutputHeader cfg +:+ dquote +:+ nl)] ++
  mjoin ((fun f => Build.font_text (Config_init f.1) (page_image f.2) (char_glyphs f.2))
           <$> Fonts cfg).

(** The text [processConfig] writes to the header file. *)
Definition header_text (cfg : ConfigFile) : list item :=
  [Txt header_start] ++
  mjoin ((fun f => makeFontStyleHeader (Config_init f.1)) <$> Fonts cfg) ++
  [Txt header_end].


(** * Verification *)

Example fmt_examples :
  fmt_02x 128 = "80" /\ fmt_02x 5 = "05" /\ fmt_2d 5 = " 5" /\ fmt_2d 12 = "12" /\
  fmt_sp2 0 = " 0" /\ fmt_sp2 12 = " 12" /\ render_item (OffsetEntry (-1)) = "-1, ".
Proof. repeat split; vm_compute; reflexivity. Qed.

Example end_to_end :
  exists s w, makeFontSource Demo.cfgA Demo.font Demo.w0 = (Ok s, w) /\
    bytes_of s = [128] /\ widths_of s = [5] /\ offsets_of s = [] /\
    total_ram w = 2.
Proof. eexists _, _. split; [vm_compute; reflexivity|]. repeat split. Qed.

Lemma emit_nil w : emit [] [] w = w.
Proof. destruct w; unfold emit; simpl. by rewrite !app_nil_r. Qed.

Lemma emit_emit o1 t1 o2 t2 w :
  emit o2 t2 (emit o1 t1 w) = emit (o1 ++ o2) (t1 ++ t2) w.
Proof. unfold emit; simpl. by rewrite !app_assoc. Qed.

Lemma runs_ret {A} (a : A) : runs (ret a) (Ok a) [] [].
Proof. intros w. by rewrite emit_nil. Qed.

Lemma runs_raise {A} e : runs (raise e : M A) (Raise e) [] [].
Proof. intros w. by rewrite emit_nil. Qed.

Lemma runs_bind {A B} (m : M A) (k : A -> M B) a r o1 t1 o2 t2 :
  runs m (Ok a) o1 t1 -> runs (k a) r o2 t2 ->
  runs (bind m k) r (o1 ++ o2) (t1 ++ t2).
Proof. intros Hm Hk w. unfold bind. by rewrite Hm, Hk, emit_emit. Qed.

Lemma runs_bind_raise {A B} (m : M A) (k : A -> M B) e o t :
  runs m (Raise e) o t -> runs (bind m k) (Raise e) o t.
Proof. intros Hm w. unfold bind. by rewrite Hm. Qed.

Section Loops.
Context {A B : Type}.

(** A loop whose body always succeeds is a [fold_left]. *)
Lemma runs_foldM (f : A -> B -> M A) (g : A -> B -> A)
    (o : B -> list string) (t : B -> list (Z * Z)) (l : list B) :
  (forall a b, b ∈ l -> runs (f a b) (Ok (g a b)) (o b) (t b)) ->
  forall a, runs (foldM f l a) (Ok (fold_left g l a))
                 (mjoin (o <$> l)) (mjoin (t <$> l)).
Proof.
  induction l as [|b l IH]; intros Hf a; simpl.
  - apply runs_ret.
  - eapply runs_bind.
    + apply Hf. left.
    + apply IH. intros a' b' Hb'. apply Hf. by right.
Qed.

(** A loop whose body prints nothing and samples only inside [P] does so
    too, however it ends. *)
Lemma runs_foldM_within (P : Z * Z -> Prop) (f : A -> B -> M A) (l : list B) :
  (forall a b, b ∈ l -> exists r tr, runs (f a b) r [] tr /\ Forall P tr) ->
  forall a, exists r tr, runs (foldM f l a) r [] tr /\ Forall P tr.
Proof.
  induction l as [|b l IH]; intros Hf a; simpl.
  - exists (Ok a), []. split; [apply runs_ret | constructor].
  - destruct (Hf a b) as ([a'|e] & tr & Hr & HP); [left| |].
    + destruct (IH (fun a b Hb => Hf a b (list_elem_of_further _ _ _ Hb)) a')
        as (r2 & tr2 & Hr2 & HP2).
      exists r2, (tr ++ tr2). split.
      * change (@nil string) with (@nil string ++ []). by eapply runs_bind.
      * by apply Forall_app.
    + exists (Raise e), tr. split; [by apply runs_bind_raise | done].
Qed.
End Loops.

Lemma runs_print s : runs (print s) (Ok tt) [s] [].
Proof. intros w. unfold print, emit. by rewrite app_nil_r. Qed.

Lemma runs_getpixel img x y :
  runs (getpixel img x y)
       (match img x y with Some v => Ok v | None => Raise IndexError end)
       [] [(x, y)].
Proof.
  intros w. unfold getpixel, add_reads, emit. rewrite app_nil_r.
  by destruct (img x y).
Qed.

Lemma fold_left_app_items {X Y} (e : Y -> list X) (l : list Y) (s : list X) :
  fold_left (fun s b => s ++ e b) l s = s ++ mjoin (e <$> l).
Proof.
  revert s. induction l as [|b l IH]; intros s; simpl.
  - by rewrite app_nil_r.
  - by rewrite IH, <- app_assoc.
Qed.

Lemma bytes_of_app s1 s2 : bytes_of (s1 ++ s2) = bytes_of s1 ++ bytes_of s2.
Proof. apply omap_app. Qed.

Lemma bytes_of_join (ls : list (list item)) :
  bytes_of (mjoin ls) = mjoin (bytes_of <$> ls).
Proof.
  induction ls as [|l ls IH]; [done|]. simpl.
  rewrite bytes_of_app. by rewrite IH.
Qed.

Lemma bytes_of_hex (bs : list Z) : bytes_of (HexByte <$> bs) = bs.
Proof. induction bs as [|b bs IH]; [done|]. cbn. f_equal. exact IH. Qed.

Lemma join_fmap_nil {X Y} (l : list X) : mjoin ((fun _ => @nil Y) <$> l) = [].
Proof. induction l as [|x l IH]; [done|]. simpl. exact IH. Qed.

Lemma runs_bind_ret {A B} (m : M A) (h : A -> B) a o t :
  runs m (Ok a) o t -> runs (x <- m ;; ret (h x)) (Ok (h a)) o t.
Proof.
  intros Hm. rewrite <- (app_nil_r o), <- (app_nil_r t).
  eapply runs_bind; [exact Hm | apply runs_ret].
Qed.

Lemma runs_foldM_silent {A B} (f : A -> B -> M A) (g : A -> B -> A)
    (t : B -> list (Z * Z)) (l : list B) :
  (forall a b, b ∈ l -> runs (f a b) (Ok (g a b)) [] (t b)) ->
  forall a, runs (foldM f l a) (Ok (fold_left g l a)) [] (mjoin (t <$> l)).
Proof.
  intros Hf a. rewrite <- (join_fmap_nil (Y := string) l).
  by apply runs_foldM.
Qed.

(** ** The rasterizer computes [Raster.code_of] *)

Section RasterRuns.
Variables (g : Glyph.t) (img : Image) (crop_x crop_y : Z).

Lemma inside_in_glyph y x :
  Raster.inside g crop_x crop_y y x = true ->
  Raster.in_glyph g (Raster.source g crop_x crop_y y x).
Proof. unfold Raster.inside, Raster.in_glyph, Raster.source. simpl. lia. Qed.

Lemma touched_in_glyph y x :
  Forall (Raster.in_glyph g) (Raster.touched g crop_x crop_y y x).
Proof.
  unfold Raster.touched. destruct (Raster.inside g crop_x crop_y y x) eqn:E.
  - repeat constructor; by apply inside_in_glyph.
  - constructor.
Qed.

(** Whatever the image answers, one sample touches [Raster.touched]. *)
Lemma sample_within y x :
  exists r, runs (Glyph.sample g img crop_x crop_y y x) r []
                 (Raster.touched g crop_x crop_y y x).
Proof.
  unfold Glyph.sample, Raster.touched, Raster.inside, Raster.source.
  destruct (_ && _) eqn:E.
  - pose proof (runs_getpixel img (x - Glyph.xoffset g + crop_x + Glyph.x g)
                  (y - Glyph.yoffset g + crop_y + Glyph.y g)) as Hp.
    destruct (img _ _) as [v|].
    + eexists. apply runs_bind_ret, Hp.
    + eexists. by apply runs_bind_raise.
  - eexists. apply runs_ret.
Qed.

Hypothesis Hdef : Raster.defined_on img g.

Lemma sample_runs y x :
  runs (Glyph.sample g img crop_x crop_y y x) (Ok (Raster.lit g img crop_x crop_y y x))
       [] (Raster.touched g crop_x crop_y y x).
Proof.
  unfold Glyph.sample, Raster.lit, Raster.touched, Raster.inside, Raster.source.
  destruct (_ && _) eqn:E; [|apply runs_ret].
  pose proof (runs_getpixel img (x - Glyph.xoffset g + crop_x + Glyph.x g)
                (y - Glyph.yoffset g + crop_y + Glyph.y g)) as Hp.
  destruct (Hdef (x - Glyph.xoffset g + crop_x) (y - Glyph.yoffset g + crop_y))
    as [v Hv]; [lia..|].
  simpl. rewrite Hv in *.
  apply (runs_bind_ret _ (fun v => if 127 <? v then 1 else 0)), Hp.
Qed.

Lemma column_runs y r x :
  runs (Glyph.column g img crop_x crop_y y r x)
       (Ok (Glyph.put g r x (Raster.lit g img crop_x crop_y y x)))
       [] (Raster.touched g crop_x crop_y y x).
Proof. unfold Glyph.column. apply (runs_bind_ret _ (Glyph.put g r x)), sample_runs. Qed.

Lemma row_runs width y :
  runs (foldM (Glyph.column g img crop_x crop_y y) (range 0 width) (Glyph.Row "" [] 0 128))
       (Ok (Raster.row_of g img crop_x crop_y width y))
       [] (mjoin (Raster.touched g crop_x crop_y y <$> range 0 width)).
Proof. apply runs_foldM_silent. intros r x _. apply column_runs. Qed.

Lemma makeBitmapCode_runs width height :
  runs (Glyph.makeBitmapCode g img width height crop_x crop_y)
       (Ok (Raster.code_of g img crop_x crop_y width height))
       [] (Raster.trace_of g crop_x crop_y width height).
Proof.
  unfold Glyph.makeBitmapCode, Raster.code_of, Raster.trace_of.
  rewrite app_assoc, <- fold_left_app_items.
  apply (runs_bind_ret _ (fun s => s ++ [Txt nl])).
  apply (runs_foldM_silent _
           (fun s y => s ++ Raster.line_of g img crop_x crop_y width y)).
  intros s y _. unfold Raster.line_of.
  apply (runs_bind_ret _
           (fun r => s ++ [Txt (nl +:+ "    ")] ++ Glyph.flush r ++
                     [Txt (" // " +:+ Glyph.comment r)])).
  apply row_runs.
Qed.

End RasterRuns.

(** Without any assumption on the image: the code prints nothing and samples
    only inside the glyph's rectangle, however it ends. *)
Lemma makeBitmapCode_within g img width height crop_x crop_y :
  exists r tr, runs (Glyph.makeBitmapCode g img width height crop_x crop_y) r [] tr /\
               Forall (Raster.in_glyph g) tr.
Proof.
  unfold Glyph.makeBitmapCode.
  set (body := fun (s : list item) (y : Z) => _).
  destruct (runs_foldM_within (Raster.in_glyph g) body (range 0 height)) with
    (a := [Txt (nl +:+ "    // ASCII: " +:+ fmt_d (Glyph.id g) +:+
                ", char width: " +:+ fmt_d (Glyph.xadvance g))])
    as ([s|e] & tr & Hr & HP).
  - intros s y _. unfold body.
    destruct (runs_foldM_within (Raster.in_glyph g)
                (Glyph.column g img crop_x crop_y y) (range 0 width))
      with (a := Glyph.Row "" [] 0 128) as ([r|e] & tr & Hr & HP).
    + intros r x _. unfold Glyph.column.
      destruct (sample_within g img crop_x crop_y y x) as ([v|e] & Hv).
      * eexists _, _. split; [apply runs_bind_ret, Hv | apply touched_in_glyph].
      * eexists _, _. split; [apply runs_bind_raise, Hv | apply touched_in_glyph].
    + eexists _, _. split; [apply runs_bind_ret, Hr | done].
    + eexists _, _. split; [apply runs_bind_raise, Hr | done].
  - eexists _, _. split; [apply runs_bind_ret, Hr | done].
  - eexists _, _. split; [apply runs_bind_raise, Hr | done].
Qed.

(** ** Row packing *)

Section Packing.
Variables (g : Glyph.t) (px : Z -> Z).

(** After [n = 8 q + k] columns, [q] bytes are written, [mask] points at bit
    [7 - k] and [byte] holds the [k] bits of the started byte. *)
Lemma put_packs (n : nat) :
  exists (q k : Z) (out : list Z),
    let r := fold_left (fun r x => Glyph.put g r x (px x)) (seqZ 0 (Z.of_nat n))
                       (Glyph.Row "" [] 0 128) in
    Z.of_nat n = 8 * q + k /\ 0 <= k < 8 /\
    Glyph.bytestring r = HexByte <$> out /\
    Z.of_nat (length out) = q /\
    Glyph.mask r = 2 ^ (7 - k) /\
    (forall (j : nat) b, out !! j = Some b -> forall p, 0 <= p ->
       Z.testbit b p = (p <? 8) && negb (px (8 * Z.of_nat j + 7 - p) =? 0)) /\
    (forall p, 0 <= p ->
       Z.testbit (Glyph.byte r) p =
       (7 - k <? p) && (p <? 8) && negb (px (8 * q + 7 - p) =? 0)).
Proof.
  induction n as [|n (q & k & out & IH)].
  - exists 0, 0, []. simpl. repeat split; try done; try lia.
    intros p Hp. rewrite Z.bits_0. symmetry. apply andb_false_intro1.
    apply andb_false_iff. lia.
  - cbv zeta in IH. destruct IH as (Hn & Hk & Hbs & Hlen & Hmask & Hout & Hbyte).
    rewrite seqZ_S, fold_left_app. simpl fold_left.
    set (r := fold_left _ (seqZ 0 (Z.of_nat n)) _) in *.
    replace (0 + Z.of_nat n) with (Z.of_nat n) by lia.
    (* the byte after [byte |= mask], if the pixel is lit *)
    set (b1 := if negb (px (Z.of_nat n) =? 0)
               then Z.lor (Glyph.byte r) (Glyph.mask r) else Glyph.byte r).
    assert (Hb1 : forall p, 0 <= p ->
              Z.testbit b1 p =
              (7 - (k + 1) <? p) && (p <? 8) && negb (px (8 * q + 7 - p) =? 0)).
    { intros p Hp. unfold b1.
      destruct (Z.eq_dec p (7 - k)) as [->|Hne].
      - replace (8 * q + 7 - (7 - k)) with (Z.of_nat n) by lia.
        destruct (negb (px (Z.of_nat n) =? 0)) eqn:E.
        + rewrite Z.lor_spec, Hmask, Z.pow2_bits_true by lia.
          rewrite orb_true_r. symmetry. rewrite !andb_true_r.
          apply andb_true_intro; split; lia.
        + rewrite Hbyte by lia. rewrite Z.ltb_irrefl. simpl.
          by rewrite andb_false_r.
      - assert (Hlow : Z.testbit (Glyph.byte r) p =
                  (7 - (k + 1) <? p) && (p <? 8) && negb (px (8 * q + 7 - p) =? 0)).
        { rewrite Hbyte by lia. f_equal. f_equal.
          destruct (7 - k <? p) eqn:E1, (7 - (k + 1) <? p) eqn:E2; try done; lia. }
        destruct (negb (px (Z.of_nat n) =? 0)); [|done].
        rewrite Z.lor_spec, Hmask, Z.pow2_bits_false by lia.
        by rewrite orb_false_r. }
    assert (Hput : Glyph.put g r (Z.of_nat n) (px (Z.of_nat n)) =
              if k =? 7
              then Glyph.Row (Glyph.comment (Glyph.put g r (Z.of_nat n) (px (Z.of_nat n))))
                             (Glyph.bytestring r ++ [HexByte b1]) 0 128
              else Glyph.Row (Glyph.comment (Glyph.put g r (Z.of_nat n) (px (Z.of_nat n))))
                             (Glyph.bytestring r) b1 (2 ^ (7 - (k + 1)))).
    { assert (Hhalf : Glyph.mask r / 2 = if k =? 7 then 0 else 2 ^ (7 - (k + 1))).
      { rewrite Hmask. destruct (k =? 7) eqn:E.
        - assert (k = 7) as -> by lia. done.
        - replace (7 - k) with (Z.succ (7 - (k + 1))) by lia.
          rewrite Z.pow_succ_r by lia. rewrite Z.mul_comm, Z.div_mul; lia. }
      assert (Hpos : (k =? 7) = false -> (2 ^ (7 - (k + 1)) =? 0) = false).
      { intros E. apply Z.eqb_neq.
        assert (0 < 2 ^ (7 - (k + 1))) by (apply Z.pow_pos_nonneg; lia). lia. }
      unfold Glyph.put, b1.
      destruct (negb (px (Z.of_nat n) =? 0)); [|destruct (Glyph.xadvance g <=? _)];
        simpl; rewrite Hhalf; destruct (k =? 7) eqn:E; simpl;
        rewrite ?Hpos by done; done. }
    rewrite Hput. clear Hput. destruct (k =? 7) eqn:E.
    + assert (k = 7) as -> by lia.
      exists (q + 1), 0, (out ++ [b1]). cbv zeta. simpl.
      split; [lia|]. split; [lia|]. split; [by rewrite Hbs, fmap_app|].
      split; [rewrite length_app; simpl; lia|]. split; [done|]. split.
      * intros j b Hj p Hp. apply lookup_app_Some in Hj as [Hj|[Hge Hj]].
        { by apply Hout. }
        destruct (j - length out)%nat as [|?] eqn:Ej; [|done].
        simpl in Hj. injection Hj as <-.
        rewrite Hb1 by done. replace (8 * Z.of_nat j) with (8 * q) by lia.
        f_equal. f_equal.
        destruct (7 - (7 + 1) <? p) eqn:E1; try done; lia.
      * intros p Hp. rewrite Z.bits_0. symmetry. apply andb_false_intro1.
        apply andb_false_iff. lia.
    + exists q, (k + 1), out. cbv zeta. simpl.
      split; [lia|]. split; [lia|]. by repeat split.
Qed.

End Packing.

(** The packed bytes of a row: [ceil(width / 8)] of them, and bit [p] of
    byte [j] is the pixel of column [8 j + 7 - p], or 0 past the last
    column and above bit 7. *)
Lemma row_bytes_spec g img crop_x crop_y width y :
  0 <= width ->
  length (Raster.row_bytes g img crop_x crop_y width y) = Z.to_nat ((width + 7) / 8) /\
  forall (j : nat) b, Raster.row_bytes g img crop_x crop_y width y !! j = Some b ->
    forall p, 0 <= p ->
      Z.testbit b p =
      (p <? 8) && (8 * Z.of_nat j + 7 - p <? width) &&
      negb (Raster.lit g img crop_x crop_y y (8 * Z.of_nat j + 7 - p) =? 0).
Proof.
  intros Hw. unfold Raster.row_bytes, Raster.row_of, range.
  replace (width - 0) with (Z.of_nat (Z.to_nat width)) by lia.
  destruct (put_packs g (Raster.lit g img crop_x crop_y y) (Z.to_nat width))
    as (q & k & out & Hn & Hk & Hbs & Hlen & Hmask & Hout & Hbyte).
  set (r := fold_left _ _ _) in *.
  assert (Hflush : bytes_of (Glyph.flush r) = if k =? 0 then out else out ++ [Glyph.byte r]).
  { unfold Glyph.flush. rewrite Hmask, Hbs. destruct (k =? 0) eqn:E.
    - assert (k = 0) as -> by lia. simpl. apply bytes_of_hex.
    - assert (2 ^ (7 - k) < 2 ^ 7) by (apply Z.pow_lt_mono_r; lia).
      replace (2 ^ (7 - k) =? 128) with false by (symmetry; apply Z.eqb_neq; lia).
      simpl. by rewrite bytes_of_app, bytes_of_hex. }
  rewrite Hflush. split.
  - destruct (k =? 0) eqn:E.
    + replace ((width + 7) / 8) with q; [lia|].
      apply (Z.div_unique _ _ _ 7); lia.
    + rewrite length_app. simpl.
      replace ((width + 7) / 8) with (q + 1); [lia|].
      apply (Z.div_unique _ _ _ (k - 1)); lia.
  - intros j b Hj p Hp.
    assert (Hcase : out !! j = Some b \/
                    (k <> 0 /\ Z.of_nat j = q /\ b = Glyph.byte r)).
    { destruct (k =? 0) eqn:E; [by left|].
      apply lookup_app_Some in Hj as [Hj|[Hge Hj]]; [by left|right].
      destruct (j - length out)%nat as [|?] eqn:Ej; [|done].
      simpl in Hj. injection Hj as <-. repeat split; lia. }
    destruct Hcase as [Hj'|(Hk0 & Hjq & ->)].
    + rewrite (Hout _ _ Hj') by done.
      apply lookup_lt_Some in Hj'.
      destruct (p <? 8) eqn:E1; [|done]. simpl.
      replace (8 * Z.of_nat j + 7 - p <? width) with true; [done|].
      symmetry. apply Z.ltb_lt. lia.
    + rewrite Hbyte by done. rewrite Hjq.
      rewrite (andb_comm (7 - k <? p)). f_equal. f_equal.
      destruct (7 - k <? p) eqn:E1, (8 * q + 7 - p <? width) eqn:E2; try done; lia.
Qed.

Lemma byte_range b :
  (forall p, 8 <= p -> Z.testbit b p = false) -> 0 <= b < 256.
Proof.
  intros Hhigh. assert (Hb : b = b mod 2 ^ 8).
  { rewrite <- Z.land_ones by lia. apply Z.bits_inj'. intros p Hp.
    rewrite Z.land_spec. destruct (Z.lt_ge_cases p 8).
    - rewrite Z.ones_spec_low by lia. by rewrite andb_true_r.
    - by rewrite Hhigh by lia. }
  rewrite Hb. apply Z.mod_pos_bound. lia.
Qed.

(** ** Layout of the rasterized cell *)

Section Layout.
Variables (g : Glyph.t) (img : Image) (crop_x crop_y width height : Z).

Lemma code_bytes :
  bytes_of (Raster.code_of g img crop_x crop_y width height) =
  mjoin (Raster.row_bytes g img crop_x crop_y width <$> range 0 height).
Proof.
  unfold Raster.code_of. rewrite !bytes_of_app, bytes_of_join. simpl.
  rewrite app_nil_r, <- list_fmap_compose.
  f_equal. apply list_fmap_ext. intros _ y _. simpl.
  unfold Raster.line_of, Raster.row_bytes.
  rewrite !bytes_of_app. simpl. by rewrite app_nil_r.
Qed.

Hypothesis Hw : 0 <= width.

Lemma code_bytes_length :
  length (bytes_of (Raster.code_of g img crop_x crop_y width height)) =
  (Z.to_nat height * Z.to_nat ((width + 7) / 8))%nat.
Proof.
  rewrite code_bytes, length_join.
  rewrite (sum_list_fmap_same (Z.to_nat ((width + 7) / 8))).
  - rewrite length_fmap. unfold range. rewrite length_seqZ. f_equal. lia.
  - apply Forall_fmap, Forall_forall. intros y _. simpl.
    by apply row_bytes_spec.
Qed.

(** Byte [j] of row [y] sits at index [y * ceil(width / 8) + j]. *)
Lemma code_bytes_lookup y j :
  0 <= y < height -> 0 <= j < (width + 7) / 8 ->
  bytes_of (Raster.code_of g img crop_x crop_y width height)
    !! Z.to_nat (y * ((width + 7) / 8) + j) =
  Raster.row_bytes g img crop_x crop_y width y !! Z.to_nat j.
Proof.
  intros Hy Hj. rewrite code_bytes.
  replace (Z.to_nat (y * ((width + 7) / 8) + j))
    with (Z.to_nat y * Z.to_nat ((width + 7) / 8) + Z.to_nat j)%nat by lia.
  assert (Hrow : (Raster.row_bytes g img crop_x crop_y width <$> range 0 height)
                   !! Z.to_nat y = Some (Raster.row_bytes g img crop_x crop_y width y)).
  { rewrite list_lookup_fmap. unfold range. rewrite lookup_seqZ_lt by lia.
    simpl. do 2 f_equal. lia. }
  assert (Hlen : Forall (fun l : list Z => length l = Z.to_nat ((width + 7) / 8))
                   (Raster.row_bytes g img crop_x crop_y width <$> range 0 height)).
  { apply Forall_fmap, Forall_forall. intros y' _. simpl. by apply row_bytes_spec. }
  destruct (Raster.row_bytes g img crop_x crop_y width y !! Z.to_nat j) as [b|] eqn:E.
  - apply (join_lookup_Some_same_length' _ _ _ _ _ Hlen); [lia|]. eauto.
  - destruct (mjoin _ !! _) as [b|] eqn:E'; [|done].
    apply (join_lookup_Some_same_length' _ _ _ _ _ Hlen) in E' as (l & Hl & Hb); [|lia].
    congruence.
Qed.

(** Every byte of the cell, bit by bit. *)
Lemma code_bytes_bits y j :
  0 <= y < height -> 0 <= j < (width + 7) / 8 ->
  exists b,
    bytes_of (Raster.code_of g img crop_x crop_y width height)
      !! Z.to_nat (y * ((width + 7) / 8) + j) = Some b /\
    forall p, 0 <= p ->
      Z.testbit b p =
      (p <? 8) && (8 * j + 7 - p <? width) &&
      negb (Raster.lit g img crop_x crop_y y (8 * j + 7 - p) =? 0).
Proof.
  intros Hy Hj. rewrite code_bytes_lookup by done.
  destruct (row_bytes_spec g img crop_x crop_y width y Hw) as [Hlen Hbits].
  destruct (lookup_lt_is_Some_2 (Raster.row_bytes g img crop_x crop_y width y) (Z.to_nat j))
    as [b Hb]; [lia|].
  exists b. split; [done|]. intros p Hp.
  rewrite (Hbits _ _ Hb p Hp). by replace (Z.of_nat (Z.to_nat j)) with j by lia.
Qed.

End Layout.

(** When is a target pixel lit. *)
Lemma lit_spec g img crop_x crop_y y x :
  negb (Raster.lit g img crop_x crop_y y x =? 0) = true <->
  (0 <= x - Glyph.xoffset g + crop_x < Glyph.width g /\
   0 <= y - Glyph.yoffset g + crop_y < Glyph.height g) /\
  exists v, img (Glyph.x g + (x - Glyph.xoffset g + crop_x))
                (Glyph.y g + (y - Glyph.yoffset g + crop_y)) = Some v /\ 127 < v.
Proof.
  unfold Raster.lit, Raster.inside, Raster.source. simpl.
  rewrite (Z.add_comm (Glyph.x g)), (Z.add_comm (Glyph.y g)).
  destruct (_ && _) eqn:E.
  - destruct (img _ _) as [v|].
    + destruct (127 <? v) eqn:Ev; simpl.
      * split; [|done]. intros _. split; [lia|]. exists v. split; [done|lia].
      * split; [done|]. intros (_ & v' & Hv' & Hlt). injection Hv' as <-. lia.
    + simpl. split; [done|]. by intros (_ & v & Hv & _).
  - simpl. split; [done|]. intros (Hin & _). lia.
Qed.

Lemma column_byte_index x width :
  0 <= x < width -> 0 <= x / 8 < (width + 7) / 8.
Proof.
  intros Hx.
  pose proof (Z.div_mod x 8). pose proof (Z.mod_pos_bound x 8).
  pose proof (Z.div_mod (width + 7) 8). pose proof (Z.mod_pos_bound (width + 7) 8).
  lia.
Qed.

(** C1: under an image that answers inside the glyph's rectangle, the
    rasterizer returns, and the bit of target row [y] and column [x] of its
    output is 1 exactly when the source coordinate
    [(x - xoffset + crop_x, y - yoffset + crop_y)] lies in
    [[0, width) x [0, height)] of the glyph and the intensity sampled at
    [(glyph.x + src_x, glyph.y + src_y)] exceeds 127; otherwise it is 0. *)
Theorem makeBitmapCode_bit g img width height crop_x crop_y w :
  Raster.defined_on img g ->
  exists s w', Glyph.makeBitmapCode g img width height crop_x crop_y w = (Ok s, w') /\
    forall y x, 0 <= y < height -> 0 <= x < width ->
      exists bit, bit_at (bytes_of s) ((width + 7) / 8) y x = Some bit /\
        (bit = true <->
         let src_x := x - Glyph.xoffset g + crop_x in
         let src_y := y - Glyph.yoffset g + crop_y in
         (0 <= src_x < Glyph.width g /\ 0 <= src_y < Glyph.height g) /\
         exists v, img (Glyph.x g + src_x) (Glyph.y g + src_y) = Some v /\ 127 < v).
Proof.
  intros Hdef. rewrite (makeBitmapCode_runs g img crop_x crop_y Hdef width height w).
  eexists _, _. split; [reflexivity|]. intros y x Hy Hx.
  destruct (code_bytes_bits g img crop_x crop_y width height ltac:(lia) y (x / 8) Hy)
    as (b & Hb & Hbits); [by apply column_byte_index|].
  unfold bit_at. rewrite Hb. simpl. eexists. split; [reflexivity|].
  pose proof (Z.div_mod x 8). pose proof (Z.mod_pos_bound x 8).
  rewrite Hbits by lia.
  replace (8 * (x / 8) + 7 - (7 - x mod 8)) with x by lia.
  replace (7 - x mod 8 <? 8) with true by (symmetry; apply Z.ltb_lt; lia).
  replace (x <? width) with true by (symmetry; apply Z.ltb_lt; lia).
  simpl. apply lit_spec.
Qed.

(** C2: for a cell of [width >= 1] pixels and [height >= 1] rows the output
    holds exactly [ceil(width / 8) * height] bytes, each in [0, 256); byte
    [j] of row [y] is at index [y * ceil(width / 8) + j] and its bit [p]
    ([p = 7] first) is the pixel of column [8 j + 7 - p] of that row, or 0
    when that column is past the cell width: the unused low bits of the last
    byte of a row are 0 and no byte mixes two rows. *)
Theorem makeBitmapCode_packing g img width height crop_x crop_y w :
  1 <= width -> 1 <= height -> Raster.defined_on img g ->
  exists s w', Glyph.makeBitmapCode g img width height crop_x crop_y w = (Ok s, w') /\
    length (bytes_of s) = Z.to_nat ((width + 7) / 8 * height) /\
    (forall y j, 0 <= y < height -> 0 <= j < (width + 7) / 8 ->
       exists b, bytes_of s !! Z.to_nat (y * ((width + 7) / 8) + j) = Some b /\
         0 <= b < 256 /\
         forall p, 0 <= p < 8 ->
           Z.testbit b p =
           (8 * j + 7 - p <? width) &&
           negb (Raster.lit g img crop_x crop_y y (8 * j + 7 - p) =? 0)) /\
    (forall y, 0 <= y < height ->
       exists b, bytes_of s !! Z.to_nat (y * ((width + 7) / 8) + ((width + 7) / 8 - 1))
                 = Some b /\
         forall p, 0 <= p < 8 * ((width + 7) / 8) - width -> Z.testbit b p = false).
Proof.
  intros Hw Hh Hdef.
  rewrite (makeBitmapCode_runs g img crop_x crop_y Hdef width height w).
  eexists _, _. split; [reflexivity|].
  pose proof (Z.div_mod (width + 7) 8). pose proof (Z.mod_pos_bound (width + 7) 8).
  split; [|split].
  - rewrite code_bytes_length by lia. lia.
  - intros y j Hy Hj.
    destruct (code_bytes_bits g img crop_x crop_y width height ltac:(lia) y j Hy Hj)
      as (b & Hb & Hbits).
    exists b. split; [done|]. split.
    + apply byte_range. intros p Hp. rewrite Hbits by lia.
      by replace (p <? 8) with false by (symmetry; apply Z.ltb_ge; lia).
    + intros p Hp. rewrite Hbits by lia.
      by replace (p <? 8) with true by (symmetry; apply Z.ltb_lt; lia).
  - intros y Hy.
    destruct (code_bytes_bits g img crop_x crop_y width height ltac:(lia) y
                ((width + 7) / 8 - 1) Hy) as (b & Hb & Hbits); [lia|].
    exists b. split; [done|]. intros p Hp. rewrite Hbits by lia.
    replace (8 * ((width + 7) / 8 - 1) + 7 - p <? width) with false
      by (symmetry; apply Z.ltb_ge; lia).
    by rewrite andb_false_r.
Qed.

(** C7: the result of the rasterizer is the same from any two states of the
    world (it is a function of the glyph, the image, the cell size and the
    crop offsets alone), in particular a second call made after a first one
    returns the same bytes; and a run prints nothing, writes no file and
    leaves [total_ram] as it was: its only effect is to sample the image. *)
Theorem makeBitmapCode_deterministic g img width height crop_x crop_y w1 w2 :
  (Glyph.makeBitmapCode g img width height crop_x crop_y w1).1 =
  (Glyph.makeBitmapCode g img width height crop_x crop_y w2).1 /\
  (Glyph.makeBitmapCode g img width height crop_x crop_y
     (Glyph.makeBitmapCode g img width height crop_x crop_y w1).2).1 =
  (Glyph.makeBitmapCode g img width height crop_x crop_y w1).1 /\
  total_ram (Glyph.makeBitmapCode g img width height crop_x crop_y w1).2 = total_ram w1 /\
  stdout (Glyph.makeBitmapCode g img width height crop_x crop_y w1).2 = stdout w1 /\
  files (Glyph.makeBitmapCode g img width height crop_x crop_y w1).2 = files w1.
Proof.
  destruct (makeBitmapCode_within g img width height crop_x crop_y)
    as (r & tr & Hr & _).
  rewrite !Hr. simpl. by rewrite app_nil_r.
Qed.

(** C10: every access of a run of the rasterizer is at
    [(glyph.x + src_x, glyph.y + src_y)] with [0 <= src_x < glyph.width] and
    [0 <= src_y < glyph.height], whether the run ends normally or not; so
    when the glyph's rectangle lies within an image of size [iw] x [ih],
    every access is inside the image, and if the imaging library answers
    every access inside the image the run raises nothing. *)
Theorem makeBitmapCode_reads_in_glyph g img width height crop_x crop_y w :
  exists tr,
    reads (Glyph.makeBitmapCode g img width height crop_x crop_y w).2 = reads w ++ tr /\
    Forall (fun p : Z * Z =>
              exists src_x src_y, p = (Glyph.x g + src_x, Glyph.y g + src_y) /\
                0 <= src_x < Glyph.width g /\ 0 <= src_y < Glyph.height g) tr /\
    forall iw ih,
      0 <= Glyph.x g -> Glyph.x g + Glyph.width g <= iw ->
      0 <= Glyph.y g -> Glyph.y g + Glyph.height g <= ih ->
      Forall (fun p : Z * Z => 0 <= p.1 < iw /\ 0 <= p.2 < ih) tr /\
      ((forall x y, 0 <= x < iw -> 0 <= y < ih -> is_Some (img x y)) ->
       exists s, (Glyph.makeBitmapCode g img width height crop_x crop_y w).1 = Ok s).
Proof.
  destruct (makeBitmapCode_within g img width height crop_x crop_y)
    as (r & tr & Hr & Htr).
  exists tr. rewrite (Hr w). simpl. split; [done|]. split.
  - eapply Forall_impl; [exact Htr|]. intros [px py] [Hx Hy]. simpl in *.
    exists (px - Glyph.x g), (py - Glyph.y g). split; [f_equal; lia | lia].
  - intros iw ih Hx0 Hx1 Hy0 Hy1. split.
    + eapply Forall_impl; [exact Htr|]. intros [px py] [Hx Hy]. simpl in *. lia.
    + intros Himg.
      assert (Hdef : Raster.defined_on img g).
      { intros sx sy Hsx Hsy. apply Himg; lia. }
      pose proof (makeBitmapCode_runs g img crop_x crop_y Hdef width height w) as Hok.
      rewrite (Hr w) in Hok. injection Hok as -> _. eauto.
Qed.

(** ** The example sheet *)

Lemma sheet_defined g : g ∈ char_glyphs Demo.font -> Raster.defined_on Demo.sheet g.
Proof.
  intros Hg sx sy Hx Hy. simpl in Hg.
  repeat (apply elem_of_cons in Hg as [->|Hg]); [..|by apply elem_of_nil in Hg];
    simpl in *; unfold Demo.sheet; (destruct (_ && _) eqn:E; [eauto | lia]).
Qed.

Lemma makeBitmapCode_bit_witness :
  exists s w', Glyph.makeBitmapCode Demo.glyphB Demo.sheet 13 2 0 0 Demo.w0 = (Ok s, w') /\
    forall y x, 0 <= y < 2 -> 0 <= x < 13 ->
      exists bit, bit_at (bytes_of s) ((13 + 7) / 8) y x = Some bit /\
        (bit = true <->
         let src_x := x - Glyph.xoffset Demo.glyphB + 0 in
         let src_y := y - Glyph.yoffset Demo.glyphB + 0 in
         (0 <= src_x < Glyph.width Demo.glyphB /\ 0 <= src_y < Glyph.height Demo.glyphB) /\
         exists v, Demo.sheet (Glyph.x Demo.glyphB + src_x) (Glyph.y Demo.glyphB + src_y)
                   = Some v /\ 127 < v).
Proof.
  apply (makeBitmapCode_bit Demo.glyphB Demo.sheet 13 2 0 0 Demo.w0).
  apply sheet_defined. simpl. set_solver.
Defined.

Lemma makeBitmapCode_packing_witness :
  exists s w', Glyph.makeBitmapCode Demo.glyphA Demo.sheet 13 2 0 0 Demo.w0 = (Ok s, w') /\
    length (bytes_of s) = Z.to_nat ((13 + 7) / 8 * 2) /\
    (forall y j, 0 <= y < 2 -> 0 <= j < (13 + 7) / 8 ->
       exists b, bytes_of s !! Z.to_nat (y * ((13 + 7) / 8) + j) = Some b /\
         0 <= b < 256 /\
         forall p, 0 <= p < 8 ->
           Z.testbit b p =
           (8 * j + 7 - p <? 13) &&
           negb (Raster.lit Demo.glyphA Demo.sheet 0 0 y (8 * j + 7 - p) =? 0)) /\
    (forall y, 0 <= y < 2 ->
       exists b, bytes_of s !! Z.to_nat (y * ((13 + 7) / 8) + ((13 + 7) / 8 - 1))
                 = Some b /\
         forall p, 0 <= p < 8 * ((13 + 7) / 8) - 13 -> Z.testbit b p = false).
Proof.
  apply (makeBitmapCode_packing Demo.glyphA Demo.sheet 13 2 0 0 Demo.w0); [lia | lia |].
  apply sheet_defined. simpl. set_solver.
Defined.

Lemma makeBitmapCode_reads_in_glyph_witness :
  exists tr,
    reads (Glyph.makeBitmapCode Demo.glyphB Demo.sheet 8 2 0 0 Demo.w0).2 = tr /\
    Forall (fun p : Z * Z => 0 <= p.1 < 3 /\ 0 <= p.2 < 2) tr /\
    exists s, (Glyph.makeBitmapCode Demo.glyphB Demo.sheet 8 2 0 0 Demo.w0).1 = Ok s.
Proof.
  destruct (makeBitmapCode_reads_in_glyph Demo.glyphB Demo.sheet 8 2 0 0 Demo.w0)
    as (tr & Hreads & _ & Hin).
  destruct (Hin 3 2) as [Hall Hok]; [simpl; lia..|].
  exists tr. split; [exact Hreads|]. split; [exact Hall|].
  apply Hok. intros x y Hx Hy. unfold Demo.sheet.
  destruct (_ && _) eqn:E; [eauto | lia].
Defined.

(** Width 13: two bytes per row, the low three bits of the second are 0. *)
Example row_of_13 g img crop_x crop_y y :
  length (Raster.row_bytes g img crop_x crop_y 13 y) = 2%nat /\
  forall b, Raster.row_bytes g img crop_x crop_y 13 y !! 1%nat = Some b -> Z.land b 7 = 0.
Proof.
  destruct (row_bytes_spec g img crop_x crop_y 13 y ltac:(lia)) as [Hlen Hbits].
  split; [exact Hlen|]. intros b Hb. apply Z.bits_inj'. intros p Hp.
  rewrite Z.land_spec, Z.bits_0, (Hbits _ _ Hb p Hp).
  change 7 with (Z.ones 3). destruct (Z.lt_ge_cases p 3).
  - replace (8 * Z.of_nat 1 + Z.ones 3 - p <? 13) with false
      by (symmetry; apply Z.ltb_ge; change (Z.ones 3) with 7; lia).
    by rewrite andb_false_r.
  - rewrite Z.ones_spec_high by lia. apply andb_false_r.
Qed.

(** ** Runs that also charge [total_ram] *)

Lemma runs_eq {A} (m : M A) r o t o' t' :
  runs m r o t -> o = o' -> t = t' -> runs m r o' t'.
Proof. by intros H <- <-. Qed.

Lemma charge_0 w : charge 0 w = w.
Proof. destruct w. unfold charge. simpl. f_equal. lia. Qed.

Lemma charge_emit n1 o1 t1 n2 o2 t2 w :
  charge n2 (emit o2 t2 (charge n1 (emit o1 t1 w))) =
  charge (n1 + n2) (emit (o1 ++ o2) (t1 ++ t2) w).
Proof. unfold charge, emit. simpl. f_equal; [lia|..]; by rewrite app_assoc. Qed.

Lemma builds_of_runs {A} (m : M A) a o t : runs m (Ok a) o t -> builds m a 0 o t.
Proof. intros H w. by rewrite H, charge_0. Qed.

Lemma builds_bind {A B} (m : M A) (k : A -> M B) a b n1 o1 t1 n2 o2 t2 :
  builds m a n1 o1 t1 -> builds (k a) b n2 o2 t2 ->
  builds (bind m k) b (n1 + n2) (o1 ++ o2) (t1 ++ t2).
Proof. intros Hm Hk w. unfold bind. by rewrite Hm, Hk, charge_emit. Qed.

Lemma builds_eq {A} (m : M A) a n o t n' o' t' :
  builds m a n o t -> n = n' -> o = o' -> t = t' -> builds m a n' o' t'.
Proof. by intros H <- <- <-. Qed.

(** [total_ram += n], then [k]. *)
Lemma builds_charge {B} n (k : M B) b n2 o t :
  builds k b n2 o t ->
  builds (total <- get_total_ram ;; set_total_ram (total + n) ;;; k) b (n + n2) o t.
Proof.
  intros Hk w. unfold bind, get_total_ram, set_total_ram. simpl. rewrite Hk.
  unfold charge, emit. simpl. do 2 f_equal. lia.
Qed.

Lemma runs_chr c : 0 <= c < 1114112 -> runs (chr c) (Ok c) [] [].
Proof.
  intros Hc. unfold chr.
  replace ((0 <=? c) && (c <? 1114112)) with true; [apply runs_ret|].
  symmetry. apply andb_true_intro. split; [apply Z.leb_le | apply Z.ltb_lt]; lia.
Qed.

Lemma find_glyph_Some glyphs c g :
  find_glyph glyphs c = Some g -> g ∈ glyphs /\ Glyph.id g = c.
Proof.
  unfold find_glyph. intros H. apply find_some in H as [Hin Hid].
  split; [by apply list_elem_of_In | lia].
Qed.

Lemma find_glyph_None glyphs c :
  find_glyph glyphs c = None <-> forall g, g ∈ glyphs -> Glyph.id g <> c.
Proof.
  unfold find_glyph. split.
  - intros H g Hg. apply list_elem_of_In in Hg.
    pose proof (find_none _ _ H g Hg) as Hn. simpl in Hn. lia.
  - intros H. destruct (find _ glyphs) as [g|] eqn:E; [|done].
    apply find_some in E as [Hin Hid]. apply list_elem_of_In in Hin.
    specialize (H g Hin). lia.
Qed.

Lemma elem_of_codes config c :
  c ∈ Build.codes config <-> Config.first_ascii config <= c <= Config.last_ascii config.
Proof. unfold Build.codes, range. rewrite elem_of_seqZ. lia. Qed.

(** ** The builders compute the tables of [Build] *)

Section Builders.
Variables (config : Config.t) (img : Image) (glyphs : list Glyph.t).

(** No exception can arise: every code point of the range is accepted by
    [chr], there is a glyph to fall back on, and the image answers inside
    the rectangle of every glyph. *)
Hypothesis Hchr : forall c,
  Config.first_ascii config <= c <= Config.last_ascii config -> 0 <= c < 1114112.
Hypothesis Hne : glyphs <> [].

Lemma resolved_Some c : exists g, Build.resolved glyphs c = Some g /\ g ∈ glyphs.
Proof.
  unfold Build.resolved. destruct (find_glyph glyphs c) as [g|] eqn:E.
  - exists g. split; [done|]. by apply find_glyph_Some in E as [Hin _].
  - destruct glyphs as [|g0 gs]; [done|]. exists g0. split; [done|left].
Qed.

Lemma resolve_width_runs c g :
  Build.resolved glyphs c = Some g -> runs (resolve_width glyphs c) (Ok g) [] [].
Proof.
  unfold Build.resolved, resolve_width. intros Hg.
  destruct (find_glyph glyphs c); [injection Hg as ->; apply runs_ret|].
  destruct glyphs as [|g0 gs]; [done|]. injection Hg as ->. apply runs_ret.
Qed.

Lemma width_turn_runs s i c :
  c ∈ Build.codes config ->
  runs (char <- chr c ;;
        if truthy (Config.chars config) && negb (contains (Config.chars config) char)
        then ret (s, i)
        else
          glyph_found <- resolve_width glyphs c ;;
          let s := if i =? 0 then s ++ [Txt (nl +:+ "    ")] else s in
          let i := (i + 1) mod 8 in
          ret (s ++ Glyph.makeWidthCode glyph_found, i))
       (Ok (Build.width_step config glyphs (s, i) c)) [] [].
Proof.
  intros Hc. apply elem_of_codes in Hc.
  eapply runs_eq; [eapply runs_bind; [apply runs_chr, Hchr, Hc|] | reflexivity..].
  unfold Build.width_step, Build.excluded.
  destruct (truthy _ && negb _); [apply runs_ret|].
  destruct (resolved_Some c) as (g & Hg & _). rewrite Hg. simpl.
  apply (runs_bind_ret _ (fun g => ((if i =? 0 then s ++ [Txt (nl +:+ "    ")] else s)
                                    ++ Glyph.makeWidthCode g, (i + 1) mod 8))).
  by apply resolve_width_runs.
Qed.

Lemma makeWidthsTable_builds :
  builds (makeWidthsTable config glyphs)
         (Build.widths_text config glyphs) (Build.widths_count config) [] [].
Proof.
  unfold makeWidthsTable, Build.widths_text.
  eapply builds_eq; [apply builds_charge | apply Z.add_0_r | done..].
  apply builds_of_runs.
  apply (runs_bind_ret _ (fun r : list item * Z => r.1 ++ [Txt (nl +:+ "};" +:+ nl)])).
  eapply runs_eq;
    [apply (runs_foldM _ (Build.width_step config glyphs) (fun _ => []) (fun _ => []))
    | apply join_fmap_nil..].
  intros [s i] c Hc. by apply width_turn_runs.
Qed.

Lemma offset_turn_runs s i n c :
  c ∈ Build.codes config ->
  runs (char <- chr c ;;
        let '(s, n) :=
          if truthy (Config.chars config) && contains (Config.chars config) char
          then (s ++ [OffsetEntry n], n + 1)
          else (s ++ [OffsetEntry (-1)], n) in
        let i := i + 1 in
        let s := if i mod 8 =? 0 then s ++ [Txt (nl +:+ "    ")] else s in
        ret (s, i, n))
       (Ok (Build.offset_step config (s, i, n) c)) [] [].
Proof.
  intros Hc. apply elem_of_codes in Hc.
  eapply runs_eq; [eapply runs_bind; [apply runs_chr, Hchr, Hc|] | reflexivity..].
  unfold Build.offset_step, Build.indexed.
  destruct (truthy _ && contains _ _); apply runs_ret.
Qed.

Lemma makeBitmapsOffsetTable_runs :
  runs (makeBitmapsOffsetTable config) (Ok (Build.offsets_text config)) [] [].
Proof.
  unfold makeBitmapsOffsetTable, Build.offsets_text.
  apply (runs_bind_ret _ (fun r : list item * Z * Z => r.1.1 ++ [Txt (nl +:+ "}" +:+ nl)])).
  eapply runs_eq;
    [apply (runs_foldM _ (Build.offset_step config) (fun _ => []) (fun _ => []))
    | apply join_fmap_nil..].
  intros [[s i] n] c Hc. by apply offset_turn_runs.
Qed.

Hypothesis Hdef : forall g, g ∈ glyphs -> Raster.defined_on img g.

Lemma bitmap_turn_runs s c :
  c ∈ Build.codes config ->
  runs (char <- chr c ;;
        if truthy (Config.chars config) && negb (contains (Config.chars config) char)
        then ret s
        else
          r <- resolve_bitmap glyphs c s ;;
          code <- Glyph.makeBitmapCode r.2 img
                    (Config.bytes_width config * 8) (Config.bytes_height config)
                    (Config.crop_x config) (Config.crop_y config) ;;
          ret (r.1 ++ code))
       (Ok (s ++ Build.bitmap_entry config img glyphs c))
       (Build.bitmap_out config glyphs c) (Build.bitmap_trace config glyphs c).
Proof.
  intros Hc. apply elem_of_codes in Hc.
  eapply runs_eq; [eapply runs_bind; [apply runs_chr, Hchr, Hc|] | reflexivity..].
  unfold Build.bitmap_entry, Build.bitmap_out, Build.bitmap_trace, Build.excluded.
  destruct (truthy _ && negb _).
  { rewrite app_nil_r. apply runs_ret. }
  destruct (resolved_Some c) as (g & Hg & Hin). rewrite Hg. simpl.
  unfold resolve_bitmap. unfold Build.resolved in Hg.
  destruct (find_glyph glyphs c) as [g'|] eqn:E.
  - injection Hg as ->.
    eapply runs_eq; [eapply runs_bind; [apply runs_ret|] | reflexivity..].
    simpl. apply (runs_bind_ret _ (fun code => s ++ code)).
    apply makeBitmapCode_runs. by apply Hdef.
  - destruct glyphs as [|g0 gs]; [done|]. injection Hg as ->.
    eapply runs_eq; [eapply runs_bind|..].
    + eapply runs_bind; [apply runs_print|].
      eapply runs_bind; [apply runs_ret|apply runs_ret].
    + rewrite (app_assoc s).
      apply (runs_bind_ret _ (fun code => (s ++ [_]) ++ code)).
      apply makeBitmapCode_runs. by apply Hdef.
    + done.
    + done.
Qed.

Lemma makeBitmapsTable_builds :
  builds (makeBitmapsTable config img glyphs)
         (Build.bitmaps_text config img glyphs) (Build.bitmaps_size config)
         (mjoin (Build.bitmap_out config glyphs <$> Build.codes config))
         (mjoin (Build.bitmap_trace config glyphs <$> Build.codes config)).
Proof.
  unfold makeBitmapsTable, Build.bitmaps_text.
  eapply builds_eq; [apply builds_charge | apply Z.add_0_r | done..].
  apply builds_of_runs. rewrite app_assoc, <- fold_left_app_items.
  apply (runs_bind_ret _ (fun s => s ++ [Txt ("};" +:+ nl)])).
  apply (runs_foldM _ (fun s c => s ++ Build.bitmap_entry config img glyphs c)).
  intros s c Hc. by apply bitmap_turn_runs.
Qed.

End Builders.

Lemma builds_ret {A} (a : A) : builds (ret a) a 0 [] [].
Proof. apply builds_of_runs, runs_ret. Qed.

Lemma builds_bind_ret {A B} (m : M A) (h : A -> B) a n o t :
  builds m a n o t -> builds (x <- m ;; ret (h x)) (h a) n o t.
Proof.
  intros Hm. eapply builds_eq; [eapply builds_bind; [exact Hm | apply builds_ret]|..].
  - lia.
  - apply app_nil_r.
  - apply app_nil_r.
Qed.

Lemma loadFont_runs config font :
  runs (loadFont config font) (Ok (page_image font, char_glyphs font))
       ["Reading font description: " +:+ Config.font_input config;
        "Reading font bitmap: " +:+ page_file font] [].
Proof.
  unfold loadFont.
  eapply runs_eq; [eapply runs_bind; [apply runs_print|] | reflexivity..].
  eapply runs_eq; [eapply runs_bind; [apply runs_print|apply runs_ret] | reflexivity..].
Qed.

(** The whole font: text, charge, messages and accesses. *)
Lemma makeFontSource_builds config font :
  (forall c, Config.first_ascii config <= c <= Config.last_ascii config ->
             0 <= c < 1114112) ->
  char_glyphs font <> [] ->
  (forall g, g ∈ char_glyphs font -> Raster.defined_on (page_image font) g) ->
  builds (makeFontSource config font)
         (Build.font_text config (page_image font) (char_glyphs font))
         (Build.font_size config)
         (["Reading font description: " +:+ Config.font_input config;
           "Reading font bitmap: " +:+ page_file font] ++
          mjoin (Build.bitmap_out config (char_glyphs font) <$> Build.codes config))
         (mjoin (Build.bitmap_trace config (char_glyphs font) <$> Build.codes config)).
Proof.
  intros Hchr Hne Hdef. unfold makeFontSource, Build.font_text, Build.font_size.
  eapply builds_eq;
    [eapply builds_bind; [apply builds_of_runs, loadFont_runs|] | reflexivity..].
  cbv beta iota.
  eapply builds_eq;
    [eapply builds_bind; [by apply makeBitmapsTable_builds|] | reflexivity | ..].
  - destruct (Config.fixed_width config =? 0), (truthy (Config.chars config));
      rewrite ?app_nil_l, ?app_assoc.
    + eapply builds_eq; [eapply builds_bind; [|eapply builds_bind; [|apply builds_ret]]|..].
      * apply (builds_bind_ret _ (fun t => _ ++ t)). by apply makeWidthsTable_builds.
      * apply (builds_bind_ret _ (fun t => _ ++ t)).
        by apply builds_of_runs, makeBitmapsOffsetTable_runs.
      * lia.
      * reflexivity.
      * reflexivity.
    + eapply builds_eq; [eapply builds_bind; [|eapply builds_bind; [|apply builds_ret]]|..].
      * apply (builds_bind_ret _ (fun t => _ ++ t)). by apply makeWidthsTable_builds.
      * apply builds_ret.
      * lia.
      * reflexivity.
      * reflexivity.
    + eapply builds_eq; [eapply builds_bind; [|eapply builds_bind; [|apply builds_ret]]|..].
      * apply builds_ret.
      * apply (builds_bind_ret _ (fun t => _ ++ t)).
        by apply builds_of_runs, makeBitmapsOffsetTable_runs.
      * lia.
      * reflexivity.
      * reflexivity.
    + eapply builds_eq; [eapply builds_bind; [|eapply builds_bind; [|apply builds_ret]]|..].
      * apply builds_ret.
      * apply builds_ret.
      * lia.
      * reflexivity.
      * reflexivity.
  - by rewrite !app_nil_r.
  - by rewrite !app_nil_r.
Qed.

(** ** The data in the text of a font *)

Lemma widths_of_app s1 s2 : widths_of (s1 ++ s2) = widths_of s1 ++ widths_of s2.
Proof. apply omap_app. Qed.

Lemma offsets_of_app s1 s2 : offsets_of (s1 ++ s2) = offsets_of s1 ++ offsets_of s2.
Proof. apply omap_app. Qed.

Lemma opens_app t s1 s2 : opens t (s1 ++ s2) = opens t s1 || opens t s2.
Proof. apply existsb_app. Qed.

Lemma only_bitmaps s :
  Forall (fun i => belongs Bitmaps i = true) s ->
  widths_of s = [] /\ offsets_of s = [] /\ opens Widths s = false /\ opens Offsets s = false.
Proof. other_table. Qed.

Lemma only_widths s :
  Forall (fun i => belongs Widths i = true) s ->
  bytes_of s = [] /\ offsets_of s = [] /\ opens Bitmaps s = false /\ opens Offsets s = false.
Proof. other_table. Qed.

Lemma only_offsets s :
  Forall (fun i => belongs Offsets i = true) s ->
  bytes_of s = [] /\ widths_of s = [] /\ opens Bitmaps s = false /\ opens Widths s = false.
Proof. other_table. Qed.

Lemma decl_is_text t config :
  Forall (fun i => belongs t i = true) (makeFontStyleDecl config).
Proof. unfold makeFontStyleDecl. repeat constructor. Qed.

Lemma fold_left_invariant {X Y} (P : X -> Prop) (f : X -> Y -> X) (l : list Y) a :
  (forall a b, P a -> P (f a b)) -> P a -> P (fold_left f l a).
Proof.
  intros Hf. revert a. induction l as [|b l IH]; intros a Ha; simpl; [done|].
  apply IH, Hf, Ha.
Qed.

Lemma cell_belongs config img g :
  Forall (fun i => belongs Bitmaps i = true) (Build.cell config img g).
Proof.
  unfold Build.cell, Raster.code_of.
  apply Forall_app; split; [by repeat constructor|].
  apply Forall_app; split; [|by repeat constructor].
  apply Forall_forall. intros i Hi.
  apply list_elem_of_join in Hi as (l & Hi & Hl).
  apply list_elem_of_fmap in Hl as (y & -> & _).
  revert i Hi. apply Forall_forall. unfold Raster.line_of.
  apply Forall_app; split; [by repeat constructor|].
  apply Forall_app; split; [|by repeat constructor].
  assert (Hbs : Forall (fun i => belongs Bitmaps i = true)
                  (Glyph.bytestring (Raster.row_of g img (Config.crop_x config)
                     (Config.crop_y config) (Config.bytes_width config * 8) y))).
  { unfold Raster.row_of. apply fold_left_invariant; [|constructor].
    intros r x Hr. unfold Glyph.put.
    repeat (match goal with |- context [if ?b then _ else _] => destruct b end);
      simpl; try done; apply Forall_app; split; try done; by repeat constructor. }
  unfold Glyph.flush. destruct (negb _); [|done].
  apply Forall_app; split; [done | by repeat constructor].
Qed.

Section Data.
Variables (config : Config.t) (img : Image) (glyphs : list Glyph.t).

Lemma bitmaps_text_belongs :
  Forall (fun i => belongs Bitmaps i = true) (Build.bitmaps_text config img glyphs).
Proof.
  unfold Build.bitmaps_text.
  apply Forall_app; split; [by repeat constructor|].
  apply Forall_app; split; [|by repeat constructor].
  apply Forall_forall. intros i Hi.
  apply list_elem_of_join in Hi as (l & Hi & Hl).
  apply list_elem_of_fmap in Hl as (c & -> & _).
  revert i Hi. apply Forall_forall. unfold Build.bitmap_entry.
  destruct (Build.excluded config c); [constructor|].
  apply Forall_app; split.
  - destruct (find_glyph glyphs c); by repeat constructor.
  - destruct (Build.resolved glyphs c); [apply cell_belongs | constructor].
Qed.

Lemma widths_text_belongs :
  Forall (fun i => belongs Widths i = true) (Build.widths_text config glyphs).
Proof.
  unfold Build.widths_text.
  apply Forall_app; split; [|by repeat constructor].
  apply (fold_left_invariant
           (fun st : list item * Z => Forall (fun i => belongs Widths i = true) st.1));
    [|by repeat constructor].
  intros [s i] c Hs. unfold Build.width_step. simpl in *.
  destruct (Build.excluded config c); [done|]. simpl.
  apply Forall_app; split.
  - destruct (i =? 0); [|done]. apply Forall_app; split; [done | by repeat constructor].
  - destruct (Build.resolved glyphs c); by repeat constructor.
Qed.

Lemma offsets_text_belongs :
  Forall (fun i => belongs Offsets i = true) (Build.offsets_text config).
Proof.
  unfold Build.offsets_text.
  apply Forall_app; split; [|by repeat constructor].
  apply (fold_left_invariant
           (fun st : list item * Z * Z => Forall (fun i => belongs Offsets i = true) st.1.1));
    [|by repeat constructor].
  intros [[s i] n] c Hs. unfold Build.offset_step. simpl in *.
  destruct (Build.indexed config c), ((i + 1) mod 8 =? 0); simpl;
    repeat (apply Forall_app; split); try done; by repeat constructor.
Qed.

Lemma bitmaps_bytes :
  bytes_of (Build.bitmaps_text config img glyphs) =
  Build.bytes_for config img glyphs (Build.codes config).
Proof.
  unfold Build.bitmaps_text. rewrite !bytes_of_app, bytes_of_join. simpl.
  rewrite app_nil_r. unfold Build.bytes_for, Build.kept.
  induction (Build.codes config) as [|c l IH]; [done|].
  rewrite filter_cons, !fmap_cons.
  change (mjoin (?x :: ?k)) with (x ++ mjoin k). rewrite IH.
  unfold Build.bitmap_entry.
  destruct (Build.excluded config c) eqn:E.
  - by rewrite decide_False by done.
  - rewrite decide_True by done. rewrite fmap_cons.
    change (mjoin (?x :: ?k)) with (x ++ mjoin k).
    rewrite bytes_of_app. by destruct (find_glyph glyphs c).
Qed.

Lemma width_fold l s i :
  widths_of (fold_left (Build.width_step config glyphs) l (s, i)).1 =
  widths_of s ++ Build.widths_for config glyphs l.
Proof.
  revert s i. unfold Build.widths_for, Build.kept.
  induction l as [|c l IH]; intros s i; simpl.
  { by rewrite app_nil_r. }
  rewrite filter_cons. unfold Build.width_step at 2. simpl.
  destruct (Build.excluded config c) eqn:E.
  - rewrite decide_False by done. apply IH.
  - rewrite decide_True by done. rewrite IH, widths_of_app. simpl.
    rewrite <- app_assoc. f_equal.
    + by destruct (i =? 0); rewrite ?widths_of_app, ?app_nil_r.
    + by destruct (Build.resolved glyphs c).
Qed.

Lemma widths_widths :
  widths_of (Build.widths_text config glyphs) =
  Build.widths_for config glyphs (Build.codes config).
Proof.
  unfold Build.widths_text. rewrite widths_of_app, width_fold. simpl.
  by rewrite app_nil_r.
Qed.

Lemma offset_fold l s i n :
  offsets_of (fold_left (Build.offset_step config) l (s, i, n)).1.1 =
  offsets_of s ++ Build.offsets_from config n l.
Proof.
  revert s i n. induction l as [|c l IH]; intros s i n; simpl.
  { by rewrite app_nil_r. }
  destruct (Build.indexed config c), ((i + 1) mod 8 =? 0);
    rewrite IH, ?offsets_of_app; simpl; by rewrite ?app_nil_r, <- ?app_assoc.
Qed.

Lemma offsets_offsets :
  offsets_of (Build.offsets_text config) =
  Build.offsets_from config 0 (Build.codes config).
Proof.
  unfold Build.offsets_text. rewrite offsets_of_app, offset_fold. simpl.
  by rewrite app_nil_r.
Qed.

Lemma widths_text_opens : opens Widths (Build.widths_text config glyphs) = true.
Proof.
  unfold Build.widths_text. rewrite opens_app. apply orb_true_intro. left.
  apply (fold_left_invariant (fun st : list item * Z => opens Widths st.1 = true));
    [|done].
  intros [s i] c Hs. unfold Build.width_step. simpl in *.
  destruct (Build.excluded config c); [done|]. simpl.
  destruct (i =? 0); rewrite !opens_app, Hs; done.
Qed.

Lemma offsets_text_opens : opens Offsets (Build.offsets_text config) = true.
Proof.
  unfold Build.offsets_text. rewrite opens_app. apply orb_true_intro. left.
  apply (fold_left_invariant (fun st : list item * Z * Z => opens Offsets st.1.1 = true));
    [|done].
  intros [[s i] n] c Hs. unfold Build.offset_step. simpl in *.
  destruct (Build.indexed config c), ((i + 1) mod 8 =? 0); simpl;
    rewrite !opens_app, Hs; done.
Qed.

(** The tables in the text of a font. *)
Lemma font_text_data :
  bytes_of (Build.font_text config img glyphs) =
    Build.bytes_for config img glyphs (Build.codes config) /\
  widths_of (Build.font_text config img glyphs) =
    (if Config.fixed_width config =? 0
     then Build.widths_for config glyphs (Build.codes config) else []) /\
  offsets_of (Build.font_text config img glyphs) =
    (if truthy (Config.chars config)
     then Build.offsets_from config 0 (Build.codes config) else []) /\
  opens Widths (Build.font_text config img glyphs) = (Config.fixed_width config =? 0) /\
  opens Offsets (Build.font_text config img glyphs) = truthy (Config.chars config).
Proof.
  unfold Build.font_text.
  rewrite !bytes_of_app, !widths_of_app, !offsets_of_app, !opens_app.
  destruct (only_bitmaps _ bitmaps_text_belongs) as (-> & -> & -> & ->).
  destruct (only_widths _ widths_text_belongs) as (Hw1 & Hw2 & _ & Hw4).
  destruct (only_offsets _ offsets_text_belongs) as (Ho1 & Ho2 & _ & Ho4).
  destruct (only_bitmaps _ (decl_is_text Bitmaps config)) as (-> & -> & -> & ->).
  destruct (only_widths _ (decl_is_text Widths config)) as (-> & _).
  rewrite bitmaps_bytes. simpl.
  destruct (Config.fixed_width config =? 0), (truthy (Config.chars config));
    rewrite ?Hw1, ?Hw2, ?Hw4, ?Ho1, ?Ho2, ?Ho4, ?widths_widths, ?offsets_offsets,
      ?widths_text_opens, ?offsets_text_opens;
    simpl; by rewrite ?app_nil_r, ?orb_false_r.
Qed.

End Data.

(** ** Claims about the tables *)

Lemma cell_width_bytes bw : 0 <= bw -> (bw * 8 + 7) / 8 = bw.
Proof. intros H. symmetry. apply (Z.div_unique _ _ _ 7); lia. Qed.

Lemma bytes_for_app config img glyphs l1 l2 :
  Build.bytes_for config img glyphs (l1 ++ l2) =
  Build.bytes_for config img glyphs l1 ++ Build.bytes_for config img glyphs l2.
Proof. unfold Build.bytes_for, Build.kept. by rewrite filter_app, fmap_app, join_app. Qed.

Lemma codes_split config c :
  Config.first_ascii config <= c <= Config.last_ascii config ->
  Build.codes config =
  range (Config.first_ascii config) c ++ [c] ++ range (c + 1) (Config.last_ascii config + 1).
Proof.
  intros Hc. unfold Build.codes, range.
  replace (Config.last_ascii config + 1 - Config.first_ascii config)
    with ((c - Config.first_ascii config) + (1 + (Config.last_ascii config + 1 - (c + 1))))
    by lia.
  rewrite seqZ_app by lia. f_equal.
  rewrite seqZ_app by lia. f_equal.
  - replace (Config.first_ascii config + (c - Config.first_ascii config)) with c by lia.
    done.
  - f_equal. lia.
Qed.

(** The result of rasterizing [g] in the font's cell, from any world. *)
Lemma cell_is_rasterized config img g w :
  Raster.defined_on img g ->
  (Glyph.makeBitmapCode g img (Config.bytes_width config * 8) (Config.bytes_height config)
     (Config.crop_x config) (Config.crop_y config) w).1 = Ok (Build.cell config img g).
Proof. intros Hdef. by rewrite (makeBitmapCode_runs g img _ _ Hdef). Qed.

Lemma cell_length config img g :
  0 <= Config.bytes_width config -> 0 <= Config.bytes_height config ->
  Z.of_nat (length (bytes_of (Build.cell config img g))) =
  Config.bytes_width config * Config.bytes_height config.
Proof.
  intros Hw Hh. unfold Build.cell. rewrite code_bytes_length by lia.
  rewrite cell_width_bytes by done. lia.
Qed.

Lemma filter_all {X} (P : X -> Prop) `{!forall x, Decision (P x)} (l : list X) :
  (forall x, x ∈ l -> P x) -> filter P l = l.
Proof.
  induction l as [|x l IH]; intros Hall; [done|].
  rewrite filter_cons_True by (apply Hall; left).
  f_equal. apply IH. intros y Hy. apply Hall. by right.
Qed.

Lemma join_same_length {X} (n : Z) (ls : list (list X)) :
  Forall (fun l => Z.of_nat (length l) = n) ls ->
  Z.of_nat (length (mjoin ls)) = Z.of_nat (length ls) * n.
Proof.
  induction 1 as [|l ls Hl _ IH]; [done|]. simpl. rewrite length_app. lia.
Qed.

Lemma excluded_absent config c :
  truthy (Config.chars config) = false -> Build.excluded config c = false.
Proof. unfold Build.excluded. by intros ->. Qed.

(** C6: the bitmap table is the concatenation, in ascending order of code
    point, of one rasterized cell of [bytes_width * bytes_height] bytes for
    each code point of the range the loop does not skip (none is skipped
    when [chars] is absent); so its length is the number of those code
    points times [bytes_width * bytes_height], and a skipped code point adds
    no byte. *)
Theorem bitmaps_table_cells config img glyphs w :
  (forall c, Config.first_ascii config <= c <= Config.last_ascii config ->
             0 <= c < 1114112) ->
  glyphs <> [] ->
  (forall g, g ∈ glyphs -> Raster.defined_on img g) ->
  0 <= Config.bytes_width config -> 0 <= Config.bytes_height config ->
  exists s w' cells,
    makeBitmapsTable config img glyphs w = (Ok s, w') /\
    bytes_of s = mjoin cells /\
    Forall2 (fun c cell =>
               exists g code,
                 Build.resolved glyphs c = Some g /\
                 (Glyph.makeBitmapCode g img (Config.bytes_width config * 8)
                    (Config.bytes_height config) (Config.crop_x config)
                    (Config.crop_y config) w).1 = Ok code /\
                 cell = bytes_of code /\
                 Z.of_nat (length cell) =
                   Config.bytes_width config * Config.bytes_height config)
            (filter (fun c => Build.excluded config c = false)
                    (range (Config.first_ascii config) (Config.last_ascii config + 1)))
            cells /\
    Z.of_nat (length (bytes_of s)) =
      Z.of_nat (length (filter (fun c => Build.excluded config c = false)
                          (range (Config.first_ascii config)
                                 (Config.last_ascii config + 1))))
      * Config.bytes_width config * Config.bytes_height config /\
    (Config.chars config = None ->
     filter (fun c => Build.excluded config c = false)
            (range (Config.first_ascii config) (Config.last_ascii config + 1)) =
     range (Config.first_ascii config) (Config.last_ascii config + 1)).
Proof.
  intros Hchr Hne Hdef Hbw Hbh.
  rewrite (makeBitmapsTable_builds config img glyphs Hchr Hne Hdef w).
  eexists _, _, _. split; [reflexivity|]. split; [apply bitmaps_bytes|].
  assert (Hcells : Forall2 (fun c cell =>
               exists g code,
                 Build.resolved glyphs c = Some g /\
                 (Glyph.makeBitmapCode g img (Config.bytes_width config * 8)
                    (Config.bytes_height config) (Config.crop_x config)
                    (Config.crop_y config) w).1 = Ok code /\
                 cell = bytes_of code /\
                 Z.of_nat (length cell) =
                   Config.bytes_width config * Config.bytes_height config)
            (Build.kept config (Build.codes config))
            ((fun c => bytes_of (from_option (Build.cell config img) []
                                   (Build.resolved glyphs c)))
               <$> Build.kept config (Build.codes config))).
  { apply Forall2_fmap_r, Forall_Forall2_diag, Forall_forall. intros c _.
    destruct (resolved_Some glyphs Hne c) as (g & Hg & Hin).
    exists g, (Build.cell config img g). rewrite Hg. simpl.
    split; [done|]. split; [by apply cell_is_rasterized, Hdef|].
    split; [done | by apply cell_length]. }
  split; [exact Hcells|]. split.
  - rewrite bitmaps_bytes. unfold Build.bytes_for.
    rewrite (join_same_length (Config.bytes_width config * Config.bytes_height config)).
    + rewrite length_fmap. unfold Build.kept, Build.codes. lia.
    + apply Forall_fmap, Forall_forall. intros c _. simpl.
      destruct (resolved_Some glyphs Hne c) as (g & -> & _). simpl.
      by apply cell_length.
  - intros Hnone. apply filter_all. intros c _. apply excluded_absent.
    by rewrite Hnone.
Qed.

Lemma no_glyph_message_printed config glyphs c :
  Config.first_ascii config <= c <= Config.last_ascii config ->
  Build.excluded config c = false ->
  find_glyph glyphs c = None ->
  Build.no_glyph_message c ∈
    mjoin (Build.bitmap_out config glyphs <$> Build.codes config).
Proof.
  intros Hc Hex Hnone. apply list_elem_of_join.
  exists [Build.no_glyph_message c]. split; [left|].
  apply list_elem_of_fmap. exists c. split; [|by apply elem_of_codes].
  unfold Build.bitmap_out. by rewrite Hex, Hnone.
Qed.

Lemma substitute_bytes config img glyphs g0 c :
  Config.first_ascii config <= c <= Config.last_ascii config ->
  Build.excluded config c = false ->
  find_glyph glyphs c = None ->
  head glyphs = Some g0 ->
  Build.bytes_for config img glyphs (Build.codes config) =
  Build.bytes_for config img glyphs (range (Config.first_ascii config) c) ++
  bytes_of (Build.cell config img g0) ++
  Build.bytes_for config img glyphs (range (c + 1) (Config.last_ascii config + 1)).
Proof.
  intros Hc Hex Hnone Hhead.
  rewrite (codes_split config c Hc), !bytes_for_app. do 2 f_equal.
  unfold Build.bytes_for, Build.kept. rewrite filter_cons_True by done.
  simpl. unfold Build.resolved. rewrite Hnone, Hhead. simpl. apply app_nil_r.
Qed.

(** C4: a code point of the range that the loop does not skip and that no
    glyph has as its id, in a non-empty collection whose first glyph is
    [g0]: the bitmap table and the whole font are built without an
    exception, the message naming the code point is printed, and the entry
    of the code point in the bitmap table (after the entries of the smaller
    code points, before those of the larger ones) is the rasterization of
    [g0]. *)
Theorem missing_glyph_substituted config font g0 c w :
  (forall c, Config.first_ascii config <= c <= Config.last_ascii config ->
             0 <= c < 1114112) ->
  head (char_glyphs font) = Some g0 ->
  (forall g, g ∈ char_glyphs font -> Raster.defined_on (page_image font) g) ->
  Config.first_ascii config <= c <= Config.last_ascii config ->
  Build.excluded config c = false ->
  (forall g, g ∈ char_glyphs font -> Glyph.id g <> c) ->
  exists code,
    (Glyph.makeBitmapCode g0 (page_image font) (Config.bytes_width config * 8)
       (Config.bytes_height config) (Config.crop_x config) (Config.crop_y config) w).1
    = Ok code /\
    (exists s w',
       makeBitmapsTable config (page_image font) (char_glyphs font) w = (Ok s, w') /\
       ("INFO: No glyph for ASCII: " +:+ fmt_d c +:+ ", using substitute") ∈ stdout w' /\
       bytes_of s =
         Build.bytes_for config (page_image font) (char_glyphs font)
           (range (Config.first_ascii config) c) ++
         bytes_of code ++
         Build.bytes_for config (page_image font) (char_glyphs font)
           (range (c + 1) (Config.last_ascii config + 1))) /\
    (exists s w',
       makeFontSource config font w = (Ok s, w') /\
       ("INFO: No glyph for ASCII: " +:+ fmt_d c +:+ ", using substitute") ∈ stdout w' /\
       bytes_of s =
         Build.bytes_for config (page_image font) (char_glyphs font)
           (range (Config.first_ascii config) c) ++
         bytes_of code ++
         Build.bytes_for config (page_image font) (char_glyphs font)
           (range (c + 1) (Config.last_ascii config + 1))).
Proof.
  intros Hchr Hhead Hdef Hc Hex Hmiss.
  assert (Hne : char_glyphs font <> []) by (by destruct (char_glyphs font)).
  assert (Hg0 : g0 ∈ char_glyphs font).
  { destruct (char_glyphs font); [done|]. injection Hhead as ->. left. }
  apply find_glyph_None in Hmiss.
  exists (Build.cell config (page_image font) g0).
  split; [by apply cell_is_rasterized, Hdef|]. split.
  - rewrite (makeBitmapsTable_builds config _ _ Hchr Hne Hdef w).
    eexists _, _. split; [reflexivity|]. split.
    + simpl. apply elem_of_app. right. by apply no_glyph_message_printed.
    + rewrite bitmaps_bytes. by apply substitute_bytes.
  - rewrite (makeFontSource_builds config font Hchr Hne Hdef w).
    eexists _, _. split; [reflexivity|]. split.
    + simpl. apply elem_of_app. right. do 2 right.
      by apply no_glyph_message_printed.
    + destruct (font_text_data config (page_image font) (char_glyphs font)) as (-> & _).
      by apply substitute_bytes.
Qed.

Lemma widths_for_entries config glyphs l :
  glyphs <> [] ->
  Forall2 (fun c n => exists g, Build.resolved glyphs c = Some g /\ n = Glyph.xadvance g)
          (Build.kept config l) (Build.widths_for config glyphs l).
Proof.
  intros Hne. unfold Build.widths_for.
  induction (Build.kept config l) as [|c k IH]; [constructor|].
  simpl. destruct (resolved_Some glyphs Hne c) as (g & Hg & _). rewrite Hg. simpl.
  constructor; [by exists g | exact IH].
Qed.

Lemma length_codes config :
  length (Build.codes config) =
  Z.to_nat (Config.last_ascii config - Config.first_ascii config + 1).
Proof. unfold Build.codes, range. rewrite length_seqZ. f_equal. lia. Qed.

(** C3, as the code has it: with [fixed_width == 0] the font has a width
    table holding the advance of the resolved glyph for each code point of
    the range that the loop does not skip, in ascending order, and for no
    other; it has one entry per code point of the range when [chars] is
    absent or empty.  With [fixed_width != 0] there is no width table. *)
Theorem widths_table_dense config font w :
  (forall c, Config.first_ascii config <= c <= Config.last_ascii config ->
             0 <= c < 1114112) ->
  char_glyphs font <> [] ->
  (forall g, g ∈ char_glyphs font -> Raster.defined_on (page_image font) g) ->
  exists s w',
    makeFontSource config font w = (Ok s, w') /\
    (Config.fixed_width config = 0 ->
       opens Widths s = true /\
       Forall2 (fun c n => exists g, Build.resolved (char_glyphs font) c = Some g /\
                                     n = Glyph.xadvance g)
               (filter (fun c => Build.excluded config c = false)
                       (range (Config.first_ascii config) (Config.last_ascii config + 1)))
               (widths_of s) /\
       (truthy (Config.chars config) = false ->
        length (widths_of s) =
        Z.to_nat (Config.last_ascii config - Config.first_ascii config + 1))) /\
    (Config.fixed_width config <> 0 -> opens Widths s = false /\ widths_of s = []).
Proof.
  intros Hchr Hne Hdef.
  rewrite (makeFontSource_builds config font Hchr Hne Hdef w).
  eexists _, _. split; [reflexivity|].
  destruct (font_text_data config (page_image font) (char_glyphs font))
    as (_ & Hwid & _ & Hopen & _).
  rewrite Hwid, Hopen. split.
  - intros ->. simpl. split; [done|]. split; [by apply widths_for_entries|].
    intros Htruthy.
    rewrite <- (Forall2_length _ _ _ (widths_for_entries config _ (Build.codes config) Hne)).
    unfold Build.kept. rewrite filter_all; [apply length_codes|].
    intros c _. by apply excluded_absent.
  - intros Hfix. by replace (Config.fixed_width config =? 0) with false
      by (symmetry; apply Z.eqb_neq; done).
Qed.

(** The claim C3 as stated fails: for the range 65..67 with
    [chars = {'A', 'C'}] and glyphs of advance 5, 6 and 7, the text declares
    [F_Widths[3]] and lists the two entries 5 and 7: code point 66, whose
    glyph has advance 6, has no entry. *)
Lemma widths_table_full_range_counterexample :
  exists s w',
    makeFontSource (Config_init Demo.secAC) Demo.font Demo.w0 = (Ok s, w') /\
    Config.fixed_width (Config_init Demo.secAC) = 0 /\
    Build.resolved (char_glyphs Demo.font) 66 = Some Demo.glyphB /\
    Glyph.xadvance Demo.glyphB = 6 /\
    widths_of s = [5; 7] /\
    Z.of_nat (length (widths_of s)) <>
      Config.last_ascii (Config_init Demo.secAC)
      - Config.first_ascii (Config_init Demo.secAC) + 1.
Proof.
  eexists _, _. split; [vm_compute; reflexivity|].
  do 4 (split; [reflexivity|]). vm_compute. discriminate.
Qed.

Lemma widths_table_dense_witness :
  exists s w',
    makeFontSource (Config_init Demo.secAC) Demo.font Demo.w0 = (Ok s, w') /\
    opens Widths s = true /\ length (widths_of s) = 2%nat.
Proof.
  destruct (widths_table_dense (Config_init Demo.secAC) Demo.font Demo.w0)
    as (s & w' & Hrun & Hvar & _).
  - simpl. lia.
  - discriminate.
  - apply sheet_defined.
  - exists s, w'. split; [exact Hrun|].
    destruct (Hvar eq_refl) as (Hopen & Hall & _). split; [exact Hopen|].
    symmetry. apply (Forall2_length _ _ _ Hall).
Defined.

(** ** The offset table *)

Lemma truthy_nonempty chars :
  truthy chars = true <-> exists cs : gset Z, chars = Some cs /\ cs <> ∅.
Proof.
  destruct chars as [cs|]; simpl.
  - rewrite bool_decide_eq_true. split; [by exists cs|].
    by intros (cs' & [= <-] & H).
  - split; [done|]. by intros (cs & H & _).
Qed.

Lemma length_offsets_from config n l :
  length (Build.offsets_from config n l) = length l.
Proof.
  revert n. induction l as [|c l IH]; intros n; simpl; [done|].
  destruct (Build.indexed config c); simpl; by rewrite IH.
Qed.

(** The dense index grows by the number of indexed code points passed. *)
Lemma offsets_from_app config n l1 l2 :
  Build.offsets_from config n (l1 ++ l2) =
  Build.offsets_from config n l1 ++
  Build.offsets_from config
    (n + Z.of_nat (length (filter (fun c => Build.indexed config c = true) l1))) l2.
Proof.
  revert n. induction l1 as [|c l1 IH]; intros n; simpl.
  { f_equal. lia. }
  rewrite filter_cons. destruct (Build.indexed config c) eqn:E.
  - rewrite decide_True by done. simpl. rewrite IH. do 3 f_equal. lia.
  - rewrite decide_False by done. simpl. by rewrite IH.
Qed.

Lemma offsets_from_lookup config c :
  Config.first_ascii config <= c <= Config.last_ascii config ->
  Build.offsets_from config 0 (Build.codes config)
    !! Z.to_nat (c - Config.first_ascii config) =
  Some (if Build.indexed config c
        then Z.of_nat (length (filter (fun c' => Build.indexed config c' = true)
                                 (range (Config.first_ascii config) c)))
        else -1).
Proof.
  intros Hc. rewrite (codes_split config c Hc), offsets_from_app.
  assert (Hlen : length (Build.offsets_from config 0 (range (Config.first_ascii config) c))
                 = Z.to_nat (c - Config.first_ascii config)).
  { rewrite length_offsets_from. unfold range. by rewrite length_seqZ. }
  rewrite lookup_app_r by lia. rewrite Hlen, Nat.sub_diag.
  simpl. by destruct (Build.indexed config c).
Qed.

(** C5, as the code has it: the font has an offset table exactly when
    [chars] is a non-empty set [cs]; the table then has one entry per code
    point of the range, in ascending order: the number of members of [cs]
    among the smaller code points of the range for a member of [cs], and -1
    for the others. *)
Theorem offsets_table_when_nonempty config font w :
  (forall c, Config.first_ascii config <= c <= Config.last_ascii config ->
             0 <= c < 1114112) ->
  char_glyphs font <> [] ->
  (forall g, g ∈ char_glyphs font -> Raster.defined_on (page_image font) g) ->
  exists s w',
    makeFontSource config font w = (Ok s, w') /\
    (opens Offsets s = true <->
     exists cs : gset Z, Config.chars config = Some cs /\ cs <> ∅) /\
    (forall cs : gset Z, Config.chars config = Some cs -> cs <> ∅ ->
       length (offsets_of s) =
         Z.to_nat (Config.last_ascii config - Config.first_ascii config + 1) /\
       forall c, Config.first_ascii config <= c <= Config.last_ascii config ->
         offsets_of s !! Z.to_nat (c - Config.first_ascii config) =
         Some (if bool_decide (c ∈ cs)
               then Z.of_nat (length (filter (fun c' => c' ∈ cs)
                                        (range (Config.first_ascii config) c)))
               else -1)) /\
    (opens Offsets s = false -> offsets_of s = []).
Proof.
  intros Hchr Hne Hdef.
  rewrite (makeFontSource_builds config font Hchr Hne Hdef w).
  eexists _, _. split; [reflexivity|].
  destruct (font_text_data config (page_image font) (char_glyphs font))
    as (_ & _ & Hoff & _ & Hopen).
  rewrite Hoff, Hopen. split; [apply truthy_nonempty|]. split.
  - intros cs Hcs Hcs'.
    assert (Htruthy : truthy (Config.chars config) = true).
    { apply truthy_nonempty. eauto. }
    rewrite Htruthy. split.
    + rewrite length_offsets_from. apply length_codes.
    + intros c Hc. rewrite (offsets_from_lookup config c Hc).
      assert (Hidx : forall c', Build.indexed config c' = bool_decide (c' ∈ cs)).
      { intros c'. unfold Build.indexed. rewrite Htruthy, Hcs. done. }
      rewrite Hidx. f_equal.
      rewrite (list_filter_iff (fun c' => Build.indexed config c' = true)
                 (fun c' => c' ∈ cs)); [done|].
      intros c'. rewrite Hidx. apply bool_decide_eq_true.
  - by intros ->.
Qed.

(** The claim C5 as stated fails: with a strings file holding one empty line
    [chars] is set (to the empty set) and the font has no offset table. *)
Lemma offsets_table_iff_set_counterexample :
  exists s w',
    makeFontSource (Config_init Demo.secEmpty) Demo.font Demo.w0 = (Ok s, w') /\
    Config.chars (Config_init Demo.secEmpty) = Some ∅ /\
    opens Offsets s = false /\ offsets_of s = [].
Proof.
  eexists _, _. split; [vm_compute; reflexivity|].
  split; [|split; reflexivity].
  unfold Config_init. simpl. f_equal.
Qed.

Lemma offsets_table_when_nonempty_witness :
  exists s w',
    makeFontSource (Config_init Demo.secAC) Demo.font Demo.w0 = (Ok s, w') /\
    opens Offsets s = true /\
    offsets_of s !! 0%nat = Some 0 /\ offsets_of s !! 1%nat = Some (-1) /\
    offsets_of s !! 2%nat = Some 1 /\ length (offsets_of s) = 3%nat.
Proof.
  destruct (offsets_table_when_nonempty (Config_init Demo.secAC) Demo.font Demo.w0)
    as (s & w' & Hrun & Hopen & Htab & _).
  - simpl. lia.
  - discriminate.
  - apply sheet_defined.
  - assert (Hcs : loadStringsCharSet [[65; 10]; [67; 10]] <> ∅).
    { refine (bool_decide_unpack _ _). vm_compute. exact I. }
    destruct (Htab _ eq_refl Hcs) as (Hlen & Hat).
    exists s, w'. split; [exact Hrun|].
    split; [apply Hopen; eauto|].
    split; [exact (Hat 65 ltac:(simpl; lia))|].
    split; [exact (Hat 66 ltac:(simpl; lia))|].
    split; [exact (Hat 67 ltac:(simpl; lia))|exact Hlen].
Defined.

(** The documented example: [chars = {'A', 'C'}], range 65..67. *)
Example offsets_A_C :
  exists s w',
    makeFontSource (Config_init Demo.secAC) Demo.font Demo.w0 = (Ok s, w') /\
    offsets_of s = [0; -1; 1].
Proof. eexists _, _. split; [vm_compute; reflexivity | reflexivity]. Qed.

(** ** An empty character set *)

Lemma truthy_empty : truthy (Some ∅) = false.
Proof. reflexivity. Qed.

(** A font whose [chars] is false is built as if [chars] were [None]. *)
Lemma makeFontSource_falsy fi name first last bw bh cx cy chars fixed font :
  truthy chars = false ->
  makeFontSource (Config.Make fi name first last bw bh cx cy chars fixed) font =
  makeFontSource (Config.Make fi name first last bw bh cx cy None fixed) font.
Proof.
  intros Hfalse.
  unfold makeFontSource, makeBitmapsTable, makeWidthsTable, makeBitmapsOffsetTable,
    makeFontStyleDecl, loadFont.
  cbn [Config.chars Config.fixed_width Config.first_ascii Config.last_ascii
       Config.bytes_width Config.bytes_height Config.crop_x Config.crop_y
       Config.c_fontname Config.font_input].
  rewrite Hfalse. reflexivity.
Qed.

(** C9: when the strings file gives the empty set, the font is built exactly
    as without the [Strings] option, from every world and for every font:
    the same result (or exception) and the same effects.  No code point is
    skipped; and when the build succeeds the font has no offset table, its
    bitmap table has a cell for every code point of the range and, with
    [fixed_width == 0], its width table an entry for every code point. *)
Theorem empty_strings_as_absent sec strings_file font w :
  Config.Strings sec = Some strings_file ->
  loadStringsCharSet strings_file = ∅ ->
  makeFontSource (Config_init sec) font w =
    makeFontSource
      (Config_init
         (Config.Section (Config.InputFile sec) (Config.CFontName sec)
            (Config.FirstAscii sec) (Config.LastAscii sec)
            (Config.BytesWidth sec) (Config.BytesHeight sec)
            (Config.CropX sec) (Config.CropY sec) None (Config.FixedWidth sec)))
      font w /\
  (forall c, Build.excluded (Config_init sec) c = false) /\
  ((forall c, Config.FirstAscii sec <= c <= Config.LastAscii sec -> 0 <= c < 1114112) ->
   char_glyphs font <> [] ->
   (forall g, g ∈ char_glyphs font -> Raster.defined_on (page_image font) g) ->
   exists s w',
     makeFontSource (Config_init sec) font w = (Ok s, w') /\
     opens Offsets s = false /\ offsets_of s = [] /\
     bytes_of s =
       mjoin ((fun c => bytes_of (from_option (Build.cell (Config_init sec) (page_image font))
                                    [] (Build.resolved (char_glyphs font) c)))
                <$> range (Config.FirstAscii sec) (Config.LastAscii sec + 1)) /\
     (Config.fixed_width (Config_init sec) = 0 ->
      Forall2 (fun c n => exists g, Build.resolved (char_glyphs font) c = Some g /\
                                    n = Glyph.xadvance g)
              (range (Config.FirstAscii sec) (Config.LastAscii sec + 1))
              (widths_of s))).
Proof.
  intros Hstrings Hempty.
  assert (Hfalse : truthy (Config.chars (Config_init sec)) = false).
  { unfold Config_init. simpl. by rewrite Hstrings, Hempty. }
  assert (Hkept : Build.kept (Config_init sec) (Build.codes (Config_init sec)) =
                  range (Config.FirstAscii sec) (Config.LastAscii sec + 1)).
  { unfold Build.kept. apply filter_all. intros c _. by apply excluded_absent. }
  split; [|split].
  - unfold Config_init in Hfalse |- *. simpl in Hfalse |- *.
    by rewrite (makeFontSource_falsy _ _ _ _ _ _ _ _ _ _ font Hfalse).
  - intros c. by apply excluded_absent.
  - intros Hchr Hne Hdef.
    rewrite (makeFontSource_builds (Config_init sec) font Hchr Hne Hdef w).
    eexists _, _. split; [reflexivity|].
    destruct (font_text_data (Config_init sec) (page_image font) (char_glyphs font))
      as (Hbytes & Hwid & Hoff & _ & Hopen).
    rewrite Hbytes, Hwid, Hoff, Hopen, Hfalse.
    split; [done|]. split; [done|]. split.
    + unfold Build.bytes_for. by rewrite Hkept.
    + intros ->. simpl. rewrite <- Hkept. by apply widths_for_entries.
Qed.

Lemma empty_strings_as_absent_witness :
  makeFontSource (Config_init Demo.secEmpty) Demo.font Demo.w0 =
  makeFontSource (Config_init Demo.secAll) Demo.font Demo.w0 /\
  exists s w',
    makeFontSource (Config_init Demo.secEmpty) Demo.font Demo.w0 = (Ok s, w') /\
    opens Offsets s = false /\ length (widths_of s) = 3%nat.
Proof.
  destruct (empty_strings_as_absent Demo.secEmpty [[10]] Demo.font Demo.w0 eq_refl eq_refl)
    as (Hsame & _ & Hok).
  split; [exact Hsame|].
  destruct Hok as (s & w' & Hrun & Hopen & _ & _ & Hwid).
  - simpl. lia.
  - discriminate.
  - apply sheet_defined.
  - exists s, w'. split; [exact Hrun|]. split; [exact Hopen|].
    symmetry. apply (Forall2_length _ _ _ (Hwid eq_refl)).
Defined.

(** ** The counter [total_ram] *)

Lemma builds_foldM {A B} (f : A -> B -> M A) (g : A -> B -> A) (n : B -> Z)
    (o : B -> list string) (t : B -> list (Z * Z)) (l : list B) :
  (forall a b, b ∈ l -> builds (f a b) (g a b) (n b) (o b) (t b)) ->
  forall a, builds (foldM f l a) (fold_left g l a)
                   (foldr (fun b acc => n b + acc) 0 l)
                   (mjoin (o <$> l)) (mjoin (t <$> l)).
Proof.
  induction l as [|b l IH]; intros Hf a; simpl.
  - apply builds_ret.
  - eapply builds_bind.
    + apply Hf. left.
    + apply IH. intros a' b' Hb'. apply Hf. by right.
Qed.

(** What [processConfig] reports: for every font the size of the bitmap
    table of the whole range, [(last - first + 1) * bytes_width *
    bytes_height], plus [last - first + 1] when [fixed_width == 0]. *)
Lemma processConfig_total cfg w :
  Forall (fun f : Config.section * FontFile =>
            (forall c, Config.FirstAscii f.1 <= c <= Config.LastAscii f.1 ->
                       0 <= c < 1114112) /\
            char_glyphs f.2 <> [] /\
            (forall g, g ∈ char_glyphs f.2 -> Raster.defined_on (page_image f.2) g))
         (Fonts cfg) ->
  exists w',
    processConfig cfg w = (Ok tt, w') /\
    total_ram w' = total_size (Fonts cfg) /\
    ("INFO: Font tables use: " +:+ fmt_d (total_size (Fonts cfg)) +:+ " bytes")
      ∈ stdout w'.
Proof.
  intros Hok. unfold processConfig.
  match goal with
  | |- context [foldM ?b _ ?st] => set (body := b); set (start := st)
  end.
  assert (Hloop : builds (foldM body (Fonts cfg) start)
            (fold_left (fun st f =>
                          (st.1 ++ Build.font_text (Config_init f.1) (page_image f.2)
                                     (char_glyphs f.2),
                           st.2 ++ makeFontStyleHeader (Config_init f.1)))
                       (Fonts cfg) start)
            (total_size (Fonts cfg))
            (mjoin ((fun f =>
                       ["Reading font description: " +:+ Config.font_input (Config_init f.1);
                        "Reading font bitmap: " +:+ page_file f.2] ++
                       mjoin (Build.bitmap_out (Config_init f.1) (char_glyphs f.2)
                                <$> Build.codes (Config_init f.1))) <$> Fonts cfg))
            (mjoin ((fun f =>
                       mjoin (Build.bitmap_trace (Config_init f.1) (char_glyphs f.2)
                                <$> Build.codes (Config_init f.1))) <$> Fonts cfg))).
  { apply (builds_foldM body _ (fun f => Build.font_size (Config_init f.1))).
    intros [source header] [sec font] Hf. unfold body.
    apply (builds_bind_ret _ (fun t => (source ++ t, header ++ _))).
    rewrite Forall_forall in Hok. destruct (Hok _ Hf) as (Hchr & Hne & Hdef).
    by apply makeFontSource_builds. }
  unfold bind at 1. unfold set_total_ram at 1. unfold bind at 1. rewrite Hloop.
  destruct (fold_left _ (Fonts cfg) start) as [source header].
  eexists. split; [reflexivity|]. simpl. split; [lia|].
  rewrite Z.add_0_l. apply elem_of_app. left. apply elem_of_app. left.
  apply elem_of_app. right. left.
Qed.

(** C8 at a failing input: one font of range 65..67 in 1x1 cells with
    variable width and [chars = {'A', 'C'}].  The bitmap table holds 2 bytes
    and the width table 2 entries, and the run reports 6 bytes. *)
Theorem total_ram_counts_skipped_code_points :
  exists w' s w1,
    processConfig Demo.subset_file Demo.w0 = (Ok tt, w') /\
    "INFO: Font tables use: 6 bytes" ∈ stdout w' /\
    total_ram w' = 6 /\
    makeFontSource (Config_init Demo.secAC) Demo.font Demo.w0 = (Ok s, w1) /\
    length (bytes_of s) = 2%nat /\ length (widths_of s) = 2%nat.
Proof.
  eexists _, _, _. split; [vm_compute; reflexivity|].
  split; [vm_compute; do 2 right; left|].
  split; [reflexivity|].
  split; [vm_compute; reflexivity|]. split; reflexivity.
Qed.

(** ** The claims on the example sheet *)

Lemma bitmaps_table_cells_witness :
  exists s w',
    makeBitmapsTable (Config_init Demo.secAC) Demo.sheet (char_glyphs Demo.font) Demo.w0
      = (Ok s, w') /\
    Z.of_nat (length (bytes_of s)) = 2 * 1 * 1.
Proof.
  destruct (bitmaps_table_cells (Config_init Demo.secAC) Demo.sheet
              (char_glyphs Demo.font) Demo.w0)
    as (s & w' & cells & Hrun & _ & _ & Hlen & _).
  - simpl. lia.
  - discriminate.
  - apply sheet_defined.
  - simpl. lia.
  - simpl. lia.
  - exists s, w'. split; [exact Hrun | exact Hlen].
Defined.

Lemma missing_glyph_substituted_witness :
  exists code s w',
    (Glyph.makeBitmapCode Demo.glyphA Demo.sheet 8 1 0 0 Demo.w0).1 = Ok code /\
    makeFontSource Demo.cfgAD Demo.font Demo.w0 = (Ok s, w') /\
    "INFO: No glyph for ASCII: 68, using substitute" ∈ stdout w' /\
    bytes_of s =
      Build.bytes_for Demo.cfgAD Demo.sheet (char_glyphs Demo.font) (range 65 68) ++
      bytes_of code ++
      Build.bytes_for Demo.cfgAD Demo.sheet (char_glyphs Demo.font) (range 69 69).
Proof.
  destruct (missing_glyph_substituted Demo.cfgAD Demo.font Demo.glyphA 68 Demo.w0)
    as (code & Hcode & _ & s & w' & Hrun & Hmsg & Hbytes).
  - simpl. lia.
  - reflexivity.
  - apply sheet_defined.
  - simpl. lia.
  - reflexivity.
  - intros g Hg. simpl in Hg.
    repeat (apply elem_of_cons in Hg as [->|Hg]); [..|by apply elem_of_nil in Hg];
      discriminate.
  - exists code, s, w'. split; [exact Hcode|]. split; [exact Hrun|].
    split; [exact Hmsg | exact Hbytes].
Defined.

(** * Further properties of the code *)

(** ** More on runs *)

Lemma bind_ext {A B} (m1 m2 : M A) (k1 k2 : A -> M B) w :
  m1 w = m2 w -> (forall a w', k1 a w' = k2 a w') -> bind m1 k1 w = bind m2 k2 w.
Proof. intros Hm Hk. unfold bind. rewrite Hm. destruct (m2 w) as [[a|e] w1]; [apply Hk|done]. Qed.

(** Two loops whose bodies agree on the elements of the list agree. *)
Lemma foldM_ext {A B} (f g : A -> B -> M A) (l : list B) :
  (forall a b w, b ∈ l -> f a b w = g a b w) ->
  forall a w, foldM f l a w = foldM g l a w.
Proof.
  induction l as [|b l IH]; intros Hfg a w; simpl; [done|].
  apply bind_ext; [apply Hfg; left|].
  intros a' w'. apply IH. intros a0 b0 w0 Hb. apply Hfg. by right.
Qed.

Lemma foldM_fmap {A B C} (f : A -> B -> M A) (h : C -> B) (l : list C) a w :
  foldM f (h <$> l) a w = foldM (fun a c => f a (h c)) l a w.
Proof.
  revert a w. induction l as [|c l IH]; intros a w; simpl; [done|].
  apply bind_ext; [done | apply IH].
Qed.







(** ** Success and failure of the rasterizer *)

Lemma sample_runs_at g img crop_x crop_y y x :
  (Raster.inside g crop_x crop_y y x = true ->
   is_Some (img (Raster.source g crop_x crop_y y x).1
                (Raster.source g crop_x crop_y y x).2)) ->
  runs (Glyph.sample g img crop_x crop_y y x) (Ok (Raster.lit g img crop_x crop_y y x))
       [] (Raster.touched g crop_x crop_y y x).
Proof.
  unfold Glyph.sample, Raster.lit, Raster.touched, Raster.inside, Raster.source.
  simpl. destruct (_ && _) eqn:E; [|intros _; apply runs_ret].
  intros Hdef. destruct (Hdef eq_refl) as [v Hv].
  pose proof (runs_getpixel img (x - Glyph.xoffset g + crop_x + Glyph.x g)
                (y - Glyph.yoffset g + crop_y + Glyph.y g)) as Hp.
  rewrite Hv in *.
  apply (runs_bind_ret _ (fun v => if 127 <? v then 1 else 0)), Hp.
Qed.

Lemma elem_of_range a b c : c ∈ range a b <-> a <= c < b.
Proof. unfold range. rewrite elem_of_seqZ. lia. Qed.

Lemma makeBitmapCode_runs_answered g img crop_x crop_y width height :
  answered g img crop_x crop_y width height ->
  runs (Glyph.makeBitmapCode g img width height crop_x crop_y)
       (Ok (Raster.code_of g img crop_x crop_y width height))
       [] (Raster.trace_of g crop_x crop_y width height).
Proof.
  intros Hans. unfold Glyph.makeBitmapCode, Raster.code_of, Raster.trace_of.
  rewrite app_assoc, <- fold_left_app_items.
  apply (runs_bind_ret _ (fun s => s ++ [Txt nl])).
  apply (runs_foldM_silent _
           (fun s y => s ++ Raster.line_of g img crop_x crop_y width y)).
  intros s y Hy. apply elem_of_range in Hy. unfold Raster.line_of.
  apply (runs_bind_ret _
           (fun r => s ++ [Txt (nl +:+ "    ")] ++ Glyph.flush r ++
                     [Txt (" // " +:+ Glyph.comment r)])).
  apply runs_foldM_silent. intros r x Hx. apply elem_of_range in Hx.
  unfold Glyph.column. apply (runs_bind_ret _ (Glyph.put g r x)).
  apply sample_runs_at. by apply Hans.
Qed.



(** ** What the rasterizer depends on *)

Lemma inside_empty g crop_x crop_y y x :
  Glyph.width g <= 0 \/ Glyph.height g <= 0 -> Raster.inside g crop_x crop_y y x = false.
Proof.
  intros H. unfold Raster.inside. simpl.
  destruct (_ && _) eqn:E; [|done]. lia.
Qed.

(** X1: a glyph of no width or no height (a space) is rasterized without
    touching the image, whatever the image is: the run returns in the world
    it started from, and every byte of the cell is 0. *)
Theorem empty_glyph_blank g img width height crop_x crop_y w :
  Glyph.width g <= 0 \/ Glyph.height g <= 0 ->
  0 <= width ->
  exists s,
    Glyph.makeBitmapCode g img width height crop_x crop_y w = (Ok s, w) /\
    length (bytes_of s) = (Z.to_nat height * Z.to_nat ((width + 7) / 8))%nat /\
    Forall (fun b => b = 0) (bytes_of s).
Proof.
  intros Hempty Hw.
  assert (Hans : answered g img crop_x crop_y width height).
  { intros y x _ _ Hin. by rewrite inside_empty in Hin. }
  assert (Htr : Raster.trace_of g crop_x crop_y width height = []).
  { unfold Raster.trace_of. apply join_nil_2, Forall_fmap, Forall_forall.
    intros y _. simpl. apply join_nil_2, Forall_fmap, Forall_forall.
    intros x _. simpl. unfold Raster.touched. by rewrite inside_empty. }
  rewrite (makeBitmapCode_runs_answered g img crop_x crop_y width height Hans w).
  rewrite Htr, emit_nil. eexists. split; [reflexivity|].
  split; [by apply code_bytes_length|].
  rewrite code_bytes. apply Forall_join, Forall_fmap, Forall_forall.
  intros y _. simpl. apply Forall_lookup. intros j b Hb.
  destruct (row_bytes_spec g img crop_x crop_y width y Hw) as [_ Hbits].
  apply Z.bits_inj'. intros p Hp. rewrite (Hbits _ _ Hb p Hp), Z.bits_0.
  unfold Raster.lit. rewrite inside_empty by done. apply andb_false_r.
Qed.

Lemma empty_glyph_blank_witness :
  exists s,
    Glyph.makeBitmapCode (Glyph.Make 32 0 0 0 0 0 0 4) (fun _ _ => None) 16 2 0 0 Demo.w0
      = (Ok s, Demo.w0) /\
    length (bytes_of s) = 4%nat /\ Forall (fun b => b = 0) (bytes_of s).
Proof.
  apply (empty_glyph_blank (Glyph.Make 32 0 0 0 0 0 0 4) (fun _ _ => None) 16 2 0 0 Demo.w0).
  - left. simpl. lia.
  - lia.
Defined.

(** X3: the result depends on the image only through the pixels of the
    glyph's rectangle: two sheets that agree there (in what they answer and
    in what they refuse) give the same run. *)
Theorem makeBitmapCode_reads_only_glyph g img1 img2 width height crop_x crop_y w :
  (forall x y, Glyph.x g <= x < Glyph.x g + Glyph.width g ->
               Glyph.y g <= y < Glyph.y g + Glyph.height g ->
               img1 x y = img2 x y) ->
  Glyph.makeBitmapCode g img1 width height crop_x crop_y w =
  Glyph.makeBitmapCode g img2 width height crop_x crop_y w.
Proof.
  intros Hagree. unfold Glyph.makeBitmapCode.
  apply bind_ext; [|done]. apply foldM_ext. intros s y w1 _.
  apply bind_ext; [|done]. apply foldM_ext. intros r x w2 _.
  unfold Glyph.column. apply bind_ext; [|done].
  unfold Glyph.sample. destruct (_ && _) eqn:E; [|done].
  apply bind_ext; [|done]. unfold getpixel. rewrite Hagree by lia. done.
Qed.

Lemma makeBitmapCode_reads_only_glyph_witness :
  Glyph.makeBitmapCode Demo.glyphA Demo.sheet 8 1 0 0 Demo.w0 =
  Glyph.makeBitmapCode Demo.glyphA
    (fun x y => if (x =? 0) && (y =? 0) then Some 200 else None) 8 1 0 0 Demo.w0.
Proof.
  apply (makeBitmapCode_reads_only_glyph Demo.glyphA Demo.sheet
           (fun x y => if (x =? 0) && (y =? 0) then Some 200 else None)).
  intros x y Hx Hy. simpl in Hx, Hy.
  assert (x = 0) as -> by lia. assert (y = 0) as -> by lia. reflexivity.
Defined.

(** X4: cropping and the glyph's offsets act through their difference
    only: adding [dx] to both [xoffset] and [crop_x], and [dy] to both
    [yoffset] and [crop_y], changes nothing in the run. *)
Theorem crop_shifts_like_offset g img width height crop_x crop_y dx dy w :
  Glyph.makeBitmapCode
    (Glyph.Make (Glyph.id g) (Glyph.x g) (Glyph.y g) (Glyph.width g) (Glyph.height g)
                (Glyph.xoffset g + dx) (Glyph.yoffset g + dy) (Glyph.xadvance g))
    img width height (crop_x + dx) (crop_y + dy) w =
  Glyph.makeBitmapCode g img width height crop_x crop_y w.
Proof.
  unfold Glyph.makeBitmapCode. simpl.
  apply bind_ext; [|done]. apply foldM_ext. intros s y w1 _.
  apply bind_ext; [|done]. apply foldM_ext. intros r x w2 _.
  unfold Glyph.column. apply bind_ext; [|done].
  unfold Glyph.sample. simpl.
  replace (x - (Glyph.xoffset g + dx) + (crop_x + dx))
    with (x - Glyph.xoffset g + crop_x) by lia.
  replace (y - (Glyph.yoffset g + dy) + (crop_y + dy))
    with (y - Glyph.yoffset g + crop_y) by lia.
  done.
Qed.

(** ** The text of a cell, and the two printing methods *)

Lemma list_ascii_of_string_app s1 s2 :
  list_ascii_of_string (s1 +:+ s2) = list_ascii_of_string s1 ++ list_ascii_of_string s2.
Proof. induction s1 as [|c s1 IH]; simpl; [done|]. by rewrite IH. Qed.

Lemma put_comment g r x pixel :
  list_ascii_of_string (Glyph.comment (Glyph.put g r x pixel)) =
  list_ascii_of_string (Glyph.comment r) ++ [legend_char g pixel x].
Proof.
  unfold Glyph.put, legend_char.
  destruct (negb (pixel =? 0)); [|destruct (Glyph.xadvance g <=? x)]; simpl;
    destruct (_ =? 0); simpl; by rewrite list_ascii_of_string_app.
Qed.

Lemma comment_fold g (px : Z -> Z) l r :
  list_ascii_of_string
    (Glyph.comment (fold_left (fun r x => Glyph.put g r x (px x)) l r)) =
  list_ascii_of_string (Glyph.comment r) ++ ((fun x => legend_char g (px x) x) <$> l).
Proof.
  revert r. induction l as [|x l IH]; intros r; simpl.
  - by rewrite app_nil_r.
  - by rewrite IH, put_comment, <- app_assoc.
Qed.

Lemma hex_items (l : list item) :
  Forall (fun i => exists b, i = HexByte b) l -> l = HexByte <$> bytes_of l.
Proof.
  induction 1 as [|i l [b ->] _ IH]; [done|].
  cbn. f_equal. exact IH.
Qed.

Lemma flush_hex g img crop_x crop_y width y :
  Glyph.flush (Raster.row_of g img crop_x crop_y width y) =
  HexByte <$> Raster.row_bytes g img crop_x crop_y width y.
Proof.
  unfold Raster.row_bytes. apply hex_items.
  assert (Hbs : Forall (fun i => exists b, i = HexByte b)
                  (Glyph.bytestring (Raster.row_of g img crop_x crop_y width y))).
  { unfold Raster.row_of. apply fold_left_invariant; [|constructor].
    intros r x Hr. unfold Glyph.put.
    repeat (match goal with |- context [if ?b then _ else _] => destruct b end);
      simpl; try done; apply Forall_app; split; try done; repeat constructor; eauto. }
  unfold Glyph.flush. destruct (negb _); [|done].
  apply Forall_app; split; [done | repeat constructor; eauto].
Qed.

(** X5: the text of a cell is a header naming the glyph, then one line per
    row: the bytes of the row, and a comment with one character per column,
    ['O'] for a lit pixel, ['.'] for an unlit pixel at or past the
    glyph's advance and ['-'] for the other unlit pixels. *)
Theorem makeBitmapCode_lines g img width height crop_x crop_y w :
  Raster.defined_on img g ->
  exists s w',
    Glyph.makeBitmapCode g img width height crop_x crop_y w = (Ok s, w') /\
    s = [Txt (nl +:+ "    // ASCII: " +:+ fmt_d (Glyph.id g) +:+
              ", char width: " +:+ fmt_d (Glyph.xadvance g))] ++
        mjoin ((fun y =>
                  [Txt (nl +:+ "    ")] ++
                  (HexByte <$> Raster.row_bytes g img crop_x crop_y width y) ++
                  [Txt (" // " +:+
                        string_of_list_ascii
                          ((fun x => if negb (Raster.lit g img crop_x crop_y y x =? 0)
                                     then "O"%char
                                     else if Glyph.xadvance g <=? x then "."%char
                                          else "-"%char)
                             <$> range 0 width))])
                 <$> range 0 height) ++
        [Txt nl].
Proof.
  intros Hdef. rewrite (makeBitmapCode_runs g img crop_x crop_y Hdef width height w).
  eexists _, _. split; [reflexivity|].
  unfold Raster.code_of. do 3 f_equal. apply list_fmap_ext. intros _ y _.
  unfold Raster.line_of. rewrite flush_hex. do 4 f_equal.
  rewrite <- (string_of_list_ascii_of_string (Glyph.comment _)). f_equal.
  unfold Raster.row_of. by rewrite comment_fold.
Qed.

Lemma makeBitmapCode_lines_witness :
  exists s w',
    Glyph.makeBitmapCode Demo.glyphA Demo.sheet 8 1 0 0 Demo.w0 = (Ok s, w') /\
    s = [Txt (nl +:+ "    // ASCII: 65, char width: 5");
         Txt (nl +:+ "    "); HexByte 128; Txt " // O----..."; Txt nl].
Proof.
  destruct (makeBitmapCode_lines Demo.glyphA Demo.sheet 8 1 0 0 Demo.w0)
    as (s & w' & Hrun & Hs).
  - apply sheet_defined. left.
  - exists s, w'. split; [exact Hrun|]. rewrite Hs. vm_compute. reflexivity.
Defined.

(** The pixel of [printNormalized] for column [x] of row [y]. *)
Lemma normalized_pixel_runs g img crop_x crop_y y x :
  (Raster.inside g crop_x crop_y y x = true ->
   is_Some (img (Raster.source g crop_x crop_y y x).1
                (Raster.source g crop_x crop_y y x).2)) ->
  runs (let use_x := x - Glyph.xoffset g + crop_x in
        let use_y := y - Glyph.yoffset g + crop_y in
        if (0 <=? use_x) && (use_x <? Glyph.width g) &&
           (0 <=? use_y) && (use_y <? Glyph.height g)
        then v <- getpixel img (use_x + Glyph.x g) (use_y + Glyph.y g) ;;
             ret (if 127 <? v then "1" else "0")
        else ret "0")
       (Ok (if negb (Raster.lit g img crop_x crop_y y x =? 0) then "1" else "0"))
       [] (Raster.touched g crop_x crop_y y x).
Proof.
  unfold Raster.lit, Raster.touched, Raster.inside, Raster.source.
  simpl. destruct (_ && _) eqn:E; [|intros _; apply runs_ret].
  intros Hdef. destruct (Hdef eq_refl) as [v Hv].
  pose proof (runs_getpixel img (x - Glyph.xoffset g + crop_x + Glyph.x g)
                (y - Glyph.yoffset g + crop_y + Glyph.y g)) as Hp.
  rewrite Hv in *.
  replace (if negb ((if 127 <? v then 1 else 0) =? 0) then "1" else "0")
    with (if 127 <? v then "1" else "0") by (by destruct (127 <? v)).
  apply (runs_bind_ret _ (fun v => if 127 <? v then "1" else "0")), Hp.
Qed.

Lemma digits_fold (b : Z -> bool) l s :
  list_ascii_of_string (fold_left (fun s x => s +:+ (if b x then "1" else "0")) l s) =
  list_ascii_of_string s ++ ((fun x => if b x then "1"%char else "0"%char) <$> l).
Proof.
  revert s. induction l as [|x l IH]; intros s; simpl.
  - by rewrite app_nil_r.
  - rewrite IH, list_ascii_of_string_app, <- app_assoc. by destruct (b x).
Qed.

Lemma fmap_as_join {X Y} (f : X -> Y) (l : list X) :
  f <$> l = mjoin ((fun x => [f x]) <$> l).
Proof.
  induction l as [|x l IH]; [done|]. rewrite !fmap_cons.
  change (mjoin (?a :: ?k)) with (a ++ mjoin k). simpl. f_equal. exact IH.
Qed.

Lemma printNormalized_runs g img width height crop_x crop_y :
  answered g img crop_x crop_y width height ->
  runs (printNormalized g img width height crop_x crop_y) (Ok tt)
       ((fun y => string_of_list_ascii
                    ((fun x => if negb (Raster.lit g img crop_x crop_y y x =? 0)
                               then "1"%char else "0"%char) <$> range 0 width))
          <$> range 0 height)
       (Raster.trace_of g crop_x crop_y width height).
Proof.
  intros Hans. unfold printNormalized, Raster.trace_of.
  set (line := fun y : Z => string_of_list_ascii _).
  rewrite (fmap_as_join line).
  replace (Ok tt) with (Ok (A := unit) (fold_left (fun _ _ => tt) (range 0 height) tt))
    by (by destruct (fold_left _ _ _)).
  apply runs_foldM. intros [] y Hy. apply elem_of_range in Hy.
  eapply runs_eq.
  - eapply runs_bind; [|apply runs_print].
    apply (runs_foldM_silent _
             (fun s x => s +:+ (if negb (Raster.lit g img crop_x crop_y y x =? 0)
                                then "1" else "0"))).
    intros s x Hx. apply elem_of_range in Hx.
    apply (runs_bind_ret _ (fun pixel => s +:+ pixel)).
    apply normalized_pixel_runs. by apply Hans.
  - simpl. f_equal. unfold line.
    rewrite <- (string_of_list_ascii_of_string (fold_left _ _ _)). f_equal.
    by rewrite (digits_fold (fun x => negb (Raster.lit g img crop_x crop_y y x =? 0))).
  - apply app_nil_r.
Qed.

(** X6: [printNormalized] shows the pixels that [makeBitmapCode] packs: it
    prints one line per row of the cell, of one character per column, and
    the character of column [x] in the line of row [y] is ['1'] when the bit
    of that pixel in the packed bytes is 1 and ['0'] when it is 0. *)
Theorem printNormalized_shows_the_cell g img width height crop_x crop_y w :
  Raster.defined_on img g ->
  exists s w1 w2 lines,
    Glyph.makeBitmapCode g img width height crop_x crop_y w = (Ok s, w1) /\
    printNormalized g img width height crop_x crop_y w = (Ok tt, w2) /\
    stdout w2 = stdout w ++ lines /\
    length lines = Z.to_nat height /\
    forall y x, 0 <= y < height -> 0 <= x < width ->
      exists line c,
        lines !! Z.to_nat y = Some line /\
        length (list_ascii_of_string line) = Z.to_nat width /\
        list_ascii_of_string line !! Z.to_nat x = Some c /\
        bit_at (bytes_of s) ((width + 7) / 8) y x = Some (Ascii.eqb c "1") /\
        (c = "1"%char \/ c = "0"%char).
Proof.
  intros Hdef.
  assert (Hans : answered g img crop_x crop_y width height).
  { intros y x _ _ Hin. unfold Raster.inside in Hin. unfold Raster.source. simpl.
    apply Hdef; lia. }
  rewrite (makeBitmapCode_runs g img crop_x crop_y Hdef width height w).
  rewrite (printNormalized_runs g img width height crop_x crop_y Hans w).
  eexists _, _, _, _. split; [reflexivity|]. split; [reflexivity|].
  split; [reflexivity|]. split.
  { rewrite length_fmap. unfold range. rewrite length_seqZ. f_equal. lia. }
  intros y x Hy Hx. eexists _, _. split.
  { rewrite list_lookup_fmap. unfold range. rewrite lookup_seqZ_lt by lia.
    simpl. reflexivity. }
  rewrite list_ascii_of_string_of_list_ascii. split.
  { rewrite length_fmap. unfold range. rewrite length_seqZ. f_equal. lia. }
  split.
  { rewrite list_lookup_fmap. unfold range. rewrite lookup_seqZ_lt by lia.
    simpl. reflexivity. }
  replace (0 + Z.of_nat (Z.to_nat y)) with y by lia.
  replace (0 + Z.of_nat (Z.to_nat x)) with x by lia.
  destruct (code_bytes_bits g img crop_x crop_y width height ltac:(lia) y (x / 8) Hy)
    as (b & Hb & Hbits); [by apply column_byte_index|].
  unfold bit_at. rewrite Hb. simpl.
  pose proof (Z.div_mod x 8). pose proof (Z.mod_pos_bound x 8).
  rewrite Hbits by lia.
  replace (8 * (x / 8) + 7 - (7 - x mod 8)) with x by lia.
  replace (7 - x mod 8 <? 8) with true by (symmetry; apply Z.ltb_lt; lia).
  replace (x <? width) with true by (symmetry; apply Z.ltb_lt; lia).
  simpl. destruct (negb (Raster.lit g img crop_x crop_y y x =? 0)); auto.
Qed.

Lemma printNormalized_shows_the_cell_witness :
  exists w2, printNormalized Demo.glyphA Demo.sheet 8 1 0 0 Demo.w0 = (Ok tt, w2) /\
             stdout w2 = ["10000000"].
Proof.
  destruct (printNormalized_shows_the_cell Demo.glyphA Demo.sheet 8 1 0 0 Demo.w0)
    as (s & w1 & w2 & lines & _ & Hrun & Hout & _).
  - apply sheet_defined. left.
  - exists w2. split; [exact Hrun|].
    vm_compute in Hrun. injection Hrun as <-. reflexivity.
Defined.

(** X7: [printRaw] prints two lines of metrics and then what
    [printNormalized] prints for a cell of the glyph's own size cropped by
    the glyph's own offsets; the two read the same pixels in the same order
    and fail together. *)
Theorem printRaw_is_normalized self img w :
  printRaw self img w =
  (print ("id: " +:+ fmt_d (Glyph.id self) +:+ ", width: " +:+ fmt_d (Glyph.width self)
          +:+ ", height: " +:+ fmt_d (Glyph.height self)) ;;;
   print ("xoffset: " +:+ fmt_d (Glyph.xoffset self) +:+ ", yoffset: " +:+
          fmt_d (Glyph.yoffset self) +:+ ", xadvance: " +:+ fmt_d (Glyph.xadvance self)) ;;;
   printNormalized self img (Glyph.width self) (Glyph.height self)
     (Glyph.xoffset self) (Glyph.yoffset self)) w.
Proof.
  unfold printRaw, printNormalized.
  apply bind_ext; [done|]. intros _ w1. apply bind_ext; [done|]. intros _ w2.
  unfold range.
  replace (Glyph.y self + Glyph.height self - Glyph.y self) with (Glyph.height self - 0)
    by lia.
  replace (Glyph.x self + Glyph.width self - Glyph.x self) with (Glyph.width self - 0)
    by lia.
  rewrite <- (Z.add_0_r (Glyph.y self)) at 1.
  rewrite <- (fmap_add_seqZ (Glyph.y self) 0), foldM_fmap.
  apply foldM_ext. intros [] y w3 Hy. apply elem_of_seqZ in Hy.
  apply bind_ext; [|done].
  rewrite <- (Z.add_0_r (Glyph.x self)) at 1.
  rewrite <- (fmap_add_seqZ (Glyph.x self) 0), foldM_fmap.
  apply foldM_ext. intros s x w4 Hx. apply elem_of_seqZ in Hx.
  cbv zeta.
  replace (x - Glyph.xoffset self + Glyph.xoffset self) with x by lia.
  replace (y - Glyph.yoffset self + Glyph.yoffset self) with y by lia.
  replace ((0 <=? x) && (x <? Glyph.width self) && (0 <=? y) && (y <? Glyph.height self))
    with true by (symmetry; repeat (apply andb_true_intro; split); lia).
  rewrite (Z.add_comm (Glyph.x self)), (Z.add_comm (Glyph.y self)).
  unfold bind, getpixel, ret. destruct (img _ _) as [v|]; [|done].
  by destruct (127 <? v).
Qed.

(** ** The offset table as an index into the other tables *)

Lemma offsets_from_nonneg config n l :
  0 <= n ->
  filter (fun v => 0 <= v) (Build.offsets_from config n l) =
  seqZ n (Z.of_nat (length (filter (fun c => Build.indexed config c = true) l))).
Proof.
  revert n. induction l as [|c l IH]; intros n Hn; simpl; [done|].
  rewrite (filter_cons (fun c => Build.indexed config c = true)).
  destruct (Build.indexed config c) eqn:E.
  - rewrite decide_True by done. rewrite filter_cons_True by done.
    rewrite IH by lia. simpl length. rewrite (seqZ_cons n) by lia.
    do 2 f_equal; lia.
  - rewrite decide_False by done. rewrite filter_cons_False by lia. by apply IH.
Qed.

Lemma offsets_from_values config n l :
  0 <= n -> Forall (fun v => v = -1 \/ 0 <= v) (Build.offsets_from config n l).
Proof.
  revert n. induction l as [|c l IH]; intros n Hn; simpl; [constructor|].
  destruct (Build.indexed config c); constructor; auto; apply IH; lia.
Qed.

(** X8: the offset table has one entry per code point of the range; its
    entries other than -1 are 0, 1, 2, ... in this order, as many as there
    are code points of the range in [chars]; building it changes nothing in
    the world. *)
Theorem offsets_are_dense config w :
  (forall c, Config.first_ascii config <= c <= Config.last_ascii config ->
             0 <= c < 1114112) ->
  exists s,
    makeBitmapsOffsetTable config w = (Ok s, w) /\
    length (offsets_of s) =
      Z.to_nat (Config.last_ascii config - Config.first_ascii config + 1) /\
    Forall (fun v => v = -1 \/ 0 <= v) (offsets_of s) /\
    filter (fun v => 0 <= v) (offsets_of s) =
      seqZ 0 (Z.of_nat (length (filter
                 (fun c => truthy (Config.chars config)
                           && contains (Config.chars config) c = true)
                 (range (Config.first_ascii config) (Config.last_ascii config + 1))))).
Proof.
  intros Hchr. rewrite (makeBitmapsOffsetTable_runs config Hchr w), emit_nil.
  eexists. split; [reflexivity|]. rewrite offsets_offsets.
  split; [by rewrite length_offsets_from, length_codes|].
  split; [by apply offsets_from_values|].
  by apply offsets_from_nonneg.
Qed.

Lemma offsets_are_dense_witness :
  exists s,
    makeBitmapsOffsetTable (Config_init Demo.secAC) Demo.w0 = (Ok s, Demo.w0) /\
    length (offsets_of s) = 3%nat /\
    filter (fun v => 0 <= v) (offsets_of s) = [0; 1].
Proof.
  destruct (offsets_are_dense (Config_init Demo.secAC) Demo.w0)
    as (s & Hrun & Hlen & _ & Hdense).
  - simpl. lia.
  - exists s. split; [exact Hrun|]. split; [exact Hlen|]. rewrite Hdense. reflexivity.
Defined.

Lemma widths_for_app config glyphs l1 l2 :
  Build.widths_for config glyphs (l1 ++ l2) =
  Build.widths_for config glyphs l1 ++ Build.widths_for config glyphs l2.
Proof. unfold Build.widths_for, Build.kept. by rewrite filter_app, omap_app. Qed.

Lemma length_bytes_for config img glyphs l :
  glyphs <> [] ->
  0 <= Config.bytes_width config -> 0 <= Config.bytes_height config ->
  Z.of_nat (length (Build.bytes_for config img glyphs l)) =
  Z.of_nat (length (Build.kept config l))
  * (Config.bytes_width config * Config.bytes_height config).
Proof.
  intros Hne Hw Hh. unfold Build.bytes_for.
  rewrite (join_same_length (Config.bytes_width config * Config.bytes_height config)).
  - by rewrite length_fmap.
  - apply Forall_fmap, Forall_forall. intros c _. simpl.
    destruct (resolved_Some glyphs Hne c) as (g & -> & _). simpl.
    by apply cell_length.
Qed.

(** X9: the offset of an included code point locates its glyph in the other
    two tables: with offset [n], the bytes [n * size .. (n + 1) * size) of
    the bitmap table, [size = bytes_width * bytes_height], are the
    rasterization of the glyph resolved for the code point, and with
    [fixed_width == 0] entry [n] of the width table is its advance. *)
Theorem offset_locates_glyph config font (cs : gset Z) c w :
  (forall c, Config.first_ascii config <= c <= Config.last_ascii config ->
             0 <= c < 1114112) ->
  char_glyphs font <> [] ->
  (forall g, g ∈ char_glyphs font -> Raster.defined_on (page_image font) g) ->
  0 <= Config.bytes_width config -> 0 <= Config.bytes_height config ->
  Config.chars config = Some cs -> c ∈ cs ->
  Config.first_ascii config <= c <= Config.last_ascii config ->
  exists s w' n g code,
    makeFontSource config font w = (Ok s, w') /\
    offsets_of s !! Z.to_nat (c - Config.first_ascii config) = Some n /\
    0 <= n /\
    Build.resolved (char_glyphs font) c = Some g /\
    (Glyph.makeBitmapCode g (page_image font) (Config.bytes_width config * 8)
       (Config.bytes_height config) (Config.crop_x config) (Config.crop_y config) w).1
      = Ok code /\
    take (Z.to_nat (Config.bytes_width config * Config.bytes_height config))
         (drop (Z.to_nat (n * (Config.bytes_width config * Config.bytes_height config)))
               (bytes_of s)) = bytes_of code /\
    (Config.fixed_width config = 0 -> widths_of s !! Z.to_nat n = Some (Glyph.xadvance g)).
Proof.
  intros Hchr Hne Hdef Hbw Hbh Hcs Hc Hrange.
  assert (Htruthy : truthy (Config.chars config) = true).
  { apply truthy_nonempty. exists cs. split; [done|].
    intros Hempty. rewrite Hempty in Hc. by apply not_elem_of_empty in Hc. }
  assert (Hidx : forall c', Build.indexed config c' = bool_decide (c' ∈ cs)).
  { intros c'. unfold Build.indexed. by rewrite Htruthy, Hcs. }
  assert (Hex : forall c', Build.excluded config c' = negb (bool_decide (c' ∈ cs))).
  { intros c'. unfold Build.excluded. by rewrite Htruthy, Hcs. }
  assert (Hkept : forall l, Build.kept config l =
                            filter (fun c' => Build.indexed config c' = true) l).
  { intros l. unfold Build.kept. apply list_filter_iff. intros c'.
    rewrite Hex, Hidx. by destruct (bool_decide (c' ∈ cs)). }
  assert (Hexc : Build.excluded config c = false).
  { rewrite Hex. by rewrite bool_decide_eq_true_2. }
  destruct (resolved_Some (char_glyphs font) Hne c) as (g & Hg & Hin).
  set (pre := range (Config.first_ascii config) c).
  set (n := Z.of_nat (length (Build.kept config pre))).
  rewrite (makeFontSource_builds config font Hchr Hne Hdef w).
  exists (Build.font_text config (page_image font) (char_glyphs font)).
  eexists. exists n, g, (Build.cell config (page_image font) g).
  destruct (font_text_data config (page_image font) (char_glyphs font))
    as (Hbytes & Hwid & Hoff & _ & _).
  split; [reflexivity|]. split.
  { rewrite Hoff, Htruthy, (offsets_from_lookup config c Hrange), Hidx.
    rewrite bool_decide_eq_true_2 by done. unfold n. by rewrite Hkept. }
  split; [lia|]. split; [done|]. split; [by apply cell_is_rasterized, Hdef|]. split.
  - assert (Hone : Build.bytes_for config (page_image font) (char_glyphs font) [c] =
                    bytes_of (Build.cell config (page_image font) g)).
    { unfold Build.bytes_for, Build.kept. rewrite filter_cons_True by done.
      simpl. rewrite Hg. simpl. apply app_nil_r. }
    rewrite Hbytes, (codes_split config c Hrange), !bytes_for_app, Hone.
    rewrite drop_app_length'.
    + apply take_app_length'.
      pose proof (cell_length config (page_image font) g Hbw Hbh). lia.
    + pose proof (length_bytes_for config (page_image font) _ pre Hne Hbw Hbh).
      fold pre. lia.
  - intros Hfix. rewrite Hwid, Hfix. simpl.
    rewrite (codes_split config c Hrange), !widths_for_app.
    fold pre. rewrite lookup_app_r.
    + rewrite <- (Forall2_length _ _ _ (widths_for_entries config _ pre Hne)).
      replace (Z.to_nat n - length (Build.kept config pre))%nat with 0%nat by lia.
      unfold Build.widths_for, Build.kept. rewrite filter_cons_True by done.
      simpl. by rewrite Hg.
    + rewrite <- (Forall2_length _ _ _ (widths_for_entries config _ pre Hne)). lia.
Qed.

Lemma offset_locates_glyph_witness :
  exists s w' code,
    makeFontSource (Config_init Demo.secAC) Demo.font Demo.w0 = (Ok s, w') /\
    offsets_of s !! 2%nat = Some 1 /\
    (Glyph.makeBitmapCode Demo.glyphC Demo.sheet 8 1 0 0 Demo.w0).1 = Ok code /\
    take 1 (drop 1 (bytes_of s)) = bytes_of code /\
    widths_of s !! 1%nat = Some 7.
Proof.
  destruct (offset_locates_glyph (Config_init Demo.secAC) Demo.font
              (loadStringsCharSet [[65; 10]; [67; 10]]) 67 Demo.w0)
    as (s & w' & n & g & code & Hrun & Hoff & _ & Hg & Hcode & Hcell & Hwid).
  - simpl. lia.
  - discriminate.
  - apply sheet_defined.
  - simpl. lia.
  - simpl. lia.
  - reflexivity.
  - refine (bool_decide_unpack _ _). vm_compute. exact I.
  - simpl. lia.
  - pose proof Hrun as Hc. vm_compute in Hc. injection Hc as <- <-.
    injection Hg as <-. injection Hoff as <-.
    eexists _, _, code. split; [exact Hrun|]. split; [reflexivity|].
    split; [exact Hcode|]. split; [exact Hcell | exact (Hwid eq_refl)].
Defined.

(** ** Exceptions and edge cases of the builders *)

Lemma foldM_app {A B} (f : A -> B -> M A) (l1 l2 : list B) a w :
  foldM f (l1 ++ l2) a w = bind (foldM f l1 a) (foldM f l2) w.
Proof.
  revert a w. induction l1 as [|b l1 IH]; intros a w; simpl; [done|].
  unfold bind in *. destruct (f a b w) as [[a'|e] w1]; [apply IH | done].
Qed.

Lemma range_cons a b : a < b -> range a b = a :: range (a + 1) b.
Proof.
  intros H. unfold range. rewrite seqZ_cons by lia. do 2 f_equal; lia.
Qed.

(** The turns of the bitmap loop for skipped code points do nothing. *)
Lemma bitmap_turns_skipped config img glyphs (l : list Z) s w :
  Forall (fun c => 0 <= c < 1114112 /\ Build.excluded config c = true) l ->
  foldM (fun s ascii =>
           char <- chr ascii ;;
           if truthy (Config.chars config) && negb (contains (Config.chars config) char)
           then ret s
           else
             r <- resolve_bitmap glyphs ascii s ;;
             code <- Glyph.makeBitmapCode r.2 img
                       (Config.bytes_width config * 8) (Config.bytes_height config)
                       (Config.crop_x config) (Config.crop_y config) ;;
             ret (r.1 ++ code)) l s w = (Ok s, w).
Proof.
  induction 1 as [|c l [Hc Hex] _ IH]; simpl; [done|].
  unfold bind at 1. unfold bind at 1. rewrite (runs_chr c Hc w), emit_nil.
  unfold Build.excluded in Hex. rewrite Hex. exact IH.
Qed.

(** X10: with an empty list of glyphs, the bitmap table cannot be built as
    soon as one code point of the range is not skipped: at the first such
    code point the message of the substitution is printed and [glyphs[0]]
    raises [IndexError]; [total_ram] has already been charged with the size
    of the whole table, and the image has not been read. *)
Theorem no_glyphs_IndexError config img c w :
  (forall c, Config.first_ascii config <= c <= Config.last_ascii config ->
             0 <= c < 1114112) ->
  head (filter (fun c => truthy (Config.chars config)
                         && negb (contains (Config.chars config) c) = false)
               (range (Config.first_ascii config) (Config.last_ascii config + 1)))
    = Some c ->
  makeBitmapsTable config img [] w =
  (Raise IndexError,
   World (total_ram w
          + (Config.last_ascii config - Config.first_ascii config + 1)
            * Config.bytes_width config * Config.bytes_height config)
         (stdout w ++ ["INFO: No glyph for ASCII: " +:+ fmt_d c +:+ ", using substitute"])
         (reads w) (files w)).
Proof.
  intros Hchr Hhead.
  apply head_filter_Some in Hhead as Hsplit. destruct Hsplit as (pre & post & Hl & Hpre).
  assert (Hkept : truthy (Config.chars config)
                  && negb (contains (Config.chars config) c) = false).
  { apply head_Some_elem_of, list_elem_of_filter in Hhead. by destruct Hhead. }
  assert (Hin : forall c', c' ∈ pre ++ c :: post -> 0 <= c' < 1114112).
  { intros c' Hc'. rewrite <- Hl in Hc'. apply elem_of_range in Hc'. apply Hchr. lia. }
  unfold makeBitmapsTable. rewrite Hl.
  unfold bind at 1 2. unfold get_total_ram, set_total_ram. simpl.
  unfold bind at 1. rewrite foldM_app. unfold bind at 1.
  rewrite bitmap_turns_skipped.
  - simpl. unfold bind at 1 2.
    rewrite (runs_chr c); [|apply Hin, elem_of_app; right; left].
    rewrite emit_nil, Hkept. unfold bind at 1. unfold resolve_bitmap. simpl.
    unfold bind, print, first_glyph, raise. simpl. done.
  - apply Forall_forall. intros c' Hc'. split.
    + apply Hin, elem_of_app. by left.
    + rewrite Forall_forall in Hpre. specialize (Hpre c' Hc').
      unfold Build.excluded. by destruct (_ && _).
Qed.

Lemma no_glyphs_IndexError_witness :
  makeBitmapsTable (Config_init Demo.secAC) Demo.sheet [] Demo.w0 =
  (Raise IndexError,
   World 3 ["INFO: No glyph for ASCII: 65, using substitute"] [] []).
Proof.
  apply (no_glyphs_IndexError (Config_init Demo.secAC) Demo.sheet 65 Demo.w0).
  - simpl. lia.
  - reflexivity.
Defined.

(** X11: [chr] is applied to every code point before it is tested against
    [chars]: when the first code point of a non-empty range is a machine
    integer (32 bits, signed) that is not in [[0, 0x110000)], the three
    builders raise [ValueError] at their first turn, whatever [chars] and
    the glyphs are; the two that charge [total_ram] have done so. *)
Theorem first_code_point_ValueError config img glyphs w :
  Config.first_ascii config <= Config.last_ascii config ->
  - 2147483648 <= Config.first_ascii config < 2147483648 ->
  ~ (0 <= Config.first_ascii config < 1114112) ->
  makeBitmapsTable config img glyphs w =
    (Raise ValueError,
     World (total_ram w + (Config.last_ascii config - Config.first_ascii config + 1)
                          * Config.bytes_width config * Config.bytes_height config)
           (stdout w) (reads w) (files w)) /\
  makeWidthsTable config glyphs w =
    (Raise ValueError,
     World (total_ram w + (Config.last_ascii config - Config.first_ascii config + 1))
           (stdout w) (reads w) (files w)) /\
  makeBitmapsOffsetTable config w = (Raise ValueError, w).
Proof.
  intros Hle _ Hout.
  assert (Hchr : (0 <=? Config.first_ascii config)
                 && (Config.first_ascii config <? 1114112) = false).
  { apply andb_false_iff. lia. }
  unfold makeBitmapsTable, makeWidthsTable, makeBitmapsOffsetTable.
  rewrite range_cons by lia. simpl.
  unfold bind, get_total_ram, set_total_ram, chr. simpl. rewrite Hchr.
  by destruct w.
Qed.

Lemma first_code_point_ValueError_witness :
  makeBitmapsTable (Config.Make "a.fnt" "F" (-1) 67 1 1 0 0 (Some {[65]}) 0)
    Demo.sheet [Demo.glyphA] Demo.w0 = (Raise ValueError, World 69 [] [] []) /\
  makeWidthsTable (Config.Make "a.fnt" "F" (-1) 67 1 1 0 0 (Some {[65]}) 0)
    [Demo.glyphA] Demo.w0 = (Raise ValueError, World 69 [] [] []) /\
  makeBitmapsOffsetTable (Config.Make "a.fnt" "F" (-1) 67 1 1 0 0 (Some {[65]}) 0)
    Demo.w0 = (Raise ValueError, Demo.w0).
Proof.
  apply (first_code_point_ValueError
           (Config.Make "a.fnt" "F" (-1) 67 1 1 0 0 (Some {[65]}) 0)
           Demo.sheet [Demo.glyphA] Demo.w0); simpl; lia.
Defined.



(** ** The characters of the strings file *)




(** ** Glyphs with the same id *)







(** ** The files written *)

Lemma keeps_files_ret {A} (a : A) : keeps_files (ret a).
Proof. by intros w. Qed.

Lemma keeps_files_raise {A} e : keeps_files (@raise A e).
Proof. by intros w. Qed.

Lemma keeps_files_print s : keeps_files (print s).
Proof. by intros w. Qed.

Lemma keeps_files_bind {A B} (m : M A) (k : A -> M B) :
  keeps_files m -> (forall a, keeps_files (k a)) -> keeps_files (bind m k).
Proof.
  intros Hm Hk w. unfold bind. specialize (Hm w).
  destruct (m w) as [[a|e] w1]; simpl in Hm; [|done].
  rewrite <- Hm. apply Hk.
Qed.

Lemma keeps_files_foldM {A B} (f : A -> B -> M A) (l : list B) :
  (forall a b, keeps_files (f a b)) -> forall a, keeps_files (foldM f l a).
Proof.
  intros Hf. induction l as [|b l IH]; intros a; simpl.
  - apply keeps_files_ret.
  - by apply keeps_files_bind.
Qed.

Lemma keeps_files_getpixel img x y : keeps_files (getpixel img x y).
Proof. intros w. unfold getpixel. by destruct (img x y). Qed.

Lemma keeps_files_chr c : keeps_files (chr c).
Proof. intros w. unfold chr. by destruct (_ && _). Qed.

Lemma keeps_files_first_glyph glyphs : keeps_files (first_glyph glyphs).
Proof. intros w. by destruct glyphs. Qed.

Lemma keeps_files_makeBitmapCode g img width height crop_x crop_y :
  keeps_files (Glyph.makeBitmapCode g img width height crop_x crop_y).
Proof.
  unfold Glyph.makeBitmapCode.
  apply keeps_files_bind; [|intros; apply keeps_files_ret].
  apply keeps_files_foldM. intros s y.
  apply keeps_files_bind; [|intros; apply keeps_files_ret].
  apply keeps_files_foldM. intros r x. unfold Glyph.column.
  apply keeps_files_bind; [|intros; apply keeps_files_ret].
  unfold Glyph.sample. destruct (_ && _); [|apply keeps_files_ret].
  apply keeps_files_bind; [apply keeps_files_getpixel | intros; apply keeps_files_ret].
Qed.

Lemma keeps_files_makeBitmapsTable config img glyphs :
  keeps_files (makeBitmapsTable config img glyphs).
Proof.
  unfold makeBitmapsTable.
  apply keeps_files_bind; [done|]. intros total.
  apply keeps_files_bind; [done|]. intros _.
  apply keeps_files_bind; [|intros; apply keeps_files_ret].
  apply keeps_files_foldM. intros s c.
  apply keeps_files_bind; [apply keeps_files_chr|]. intros char.
  destruct (_ && _); [apply keeps_files_ret|].
  apply keeps_files_bind; [|intros r].
  - unfold resolve_bitmap. destruct (find_glyph glyphs c); [apply keeps_files_ret|].
    apply keeps_files_bind; [apply keeps_files_print|]. intros _.
    apply keeps_files_bind; [apply keeps_files_first_glyph|].
    intros; apply keeps_files_ret.
  - apply keeps_files_bind; [apply keeps_files_makeBitmapCode|].
    intros; apply keeps_files_ret.
Qed.

Lemma keeps_files_makeWidthsTable config glyphs :
  keeps_files (makeWidthsTable config glyphs).
Proof.
  unfold makeWidthsTable.
  apply keeps_files_bind; [done|]. intros total.
  apply keeps_files_bind; [done|]. intros _.
  apply keeps_files_bind; [|intros; apply keeps_files_ret].
  apply keeps_files_foldM. intros [s i] c.
  apply keeps_files_bind; [apply keeps_files_chr|]. intros char.
  destruct (_ && _); [apply keeps_files_ret|].
  apply keeps_files_bind; [|intros; apply keeps_files_ret].
  unfold resolve_width. destruct (find_glyph glyphs c);
    [apply keeps_files_ret | apply keeps_files_first_glyph].
Qed.

Lemma keeps_files_makeBitmapsOffsetTable config :
  keeps_files (makeBitmapsOffsetTable config).
Proof.
  unfold makeBitmapsOffsetTable.
  apply keeps_files_bind; [|intros; apply keeps_files_ret].
  apply keeps_files_foldM. intros [[s i] n] c.
  apply keeps_files_bind; [apply keeps_files_chr|]. intros char.
  destruct (_ && _); apply keeps_files_ret.
Qed.

Lemma keeps_files_makeFontSource config font :
  keeps_files (makeFontSource config font).
Proof.
  unfold makeFontSource, loadFont.
  apply keeps_files_bind.
  { apply keeps_files_bind; [apply keeps_files_print|]. intros _.
    apply keeps_files_bind; [apply keeps_files_print|]. intros _. apply keeps_files_ret. }
  intros [img glyphs].
  apply keeps_files_bind; [apply keeps_files_makeBitmapsTable|]. intros source.
  apply keeps_files_bind.
  { destruct (_ =? 0); [|apply keeps_files_ret].
    apply keeps_files_bind; [apply keeps_files_makeWidthsTable|].
    intros; apply keeps_files_ret. }
  intros source'.
  apply keeps_files_bind; [|intros; apply keeps_files_ret].
  destruct (truthy _); [|apply keeps_files_ret].
  apply keeps_files_bind; [apply keeps_files_makeBitmapsOffsetTable|].
  intros; apply keeps_files_ret.
Qed.

(** The two outcomes of [processConfig], as far as the files go. *)
Lemma processConfig_files cfg w :
  match processConfig cfg w with
  | (Ok _, w') =>
      exists source header,
        files w' = files w ++ [(OutputSource cfg, source); (OutputHeader cfg, header)]
  | (Raise _, w') => files w' = files w
  end.
Proof.
  unfold processConfig.
  match goal with
  | |- context [foldM ?b _ ?st] => set (body := b); set (start := st)
  end.
  assert (Hloop : keeps_files (foldM body (Fonts cfg) start)).
  { apply keeps_files_foldM. intros [source header] [sec font]. unfold body.
    apply keeps_files_bind; [apply keeps_files_makeFontSource|].
    intros; apply keeps_files_ret. }
  unfold bind at 1. unfold set_total_ram at 1. unfold bind at 1.
  match goal with
  | |- context [foldM body (Fonts cfg) start ?w0] => specialize (Hloop w0); set (w1 := w0) in *
  end.
  destruct (foldM body (Fonts cfg) start w1) as [[[source header]|e] w2];
    simpl in Hloop; [|exact Hloop].
  unfold bind, get_total_ram, print, write_file. simpl. rewrite Hloop.
  eexists _, _. rewrite <- app_assoc. reflexivity.
Qed.

(** X15: [processConfig] writes nothing before every font is built: when
    a font raises (a missing glyph list, a refused pixel, a code point
    [chr] rejects), no file has been written, not even in part; when it
    returns, exactly two files have been written, the source file first,
    the header second, also when both names are the same. *)
Theorem processConfig_writes_all_or_nothing cfg w r w' :
  processConfig cfg w = (r, w') ->
  match r with
  | Ok _ => exists source header,
      files w' = files w ++ [(OutputSource cfg, source); (OutputHeader cfg, header)]
  | Raise _ => files w' = files w
  end.
Proof.
  intros Hrun. pose proof (processConfig_files cfg w) as H. rewrite Hrun in H.
  destruct r; exact H.
Qed.

Lemma processConfig_writes_all_or_nothing_witness :
  files (processConfig (Build_ConfigFile "f.h" "f.c"
                          [(Demo.secAll, Demo.font);
                           (Demo.secAll, Build_FontFile "page.png" Demo.sheet [])])
                       Demo.w0).2 = [].
Proof.
  exact (processConfig_writes_all_or_nothing
           (Build_ConfigFile "f.h" "f.c"
              [(Demo.secAll, Demo.font);
               (Demo.secAll, Build_FontFile "page.png" Demo.sheet [])])
           Demo.w0 (Raise IndexError) _ ltac:(vm_compute; reflexivity)).
Defined.

Lemma fold_left_pair {A B C} (F : C -> list A) (H : C -> list B) (l : list C) st :
  fold_left (fun (st : list A * list B) f => (st.1 ++ F f, st.2 ++ H f)) l st =
  (st.1 ++ mjoin (F <$> l), st.2 ++ mjoin (H <$> l)).
Proof.
  revert st. induction l as [|f l IH]; intros [a b]; simpl.
  - by rewrite !app_nil_r.
  - rewrite IH. simpl. by rewrite <- !app_assoc.
Qed.

(** X16: when every font of the configuration can be built, [processConfig]
    returns; the source file holds the prologue, the [#include] of the
    header and the texts of the fonts in the order of their sections; the
    header holds its prologue, one [extern] line per font in the same order
    and the epilogue; [total_ram], whatever it was before, ends as the sum
    over the fonts, and the last three lines printed are the size report and
    the two [Writing output] lines. *)
Theorem processConfig_output cfg w :
  Forall (fun f : Config.section * FontFile =>
            (forall c, Config.FirstAscii f.1 <= c <= Config.LastAscii f.1 ->
                       0 <= c < 1114112) /\
            char_glyphs f.2 <> [] /\
            (forall g, g ∈ char_glyphs f.2 -> Raster.defined_on (page_image f.2) g))
         (Fonts cfg) ->
  exists w' log,
    processConfig cfg w = (Ok tt, w') /\
    files w' = files w ++ [(OutputSource cfg, render (source_text cfg));
                           (OutputHeader cfg, render (header_text cfg))] /\
    total_ram w' = total_size (Fonts cfg) /\
    stdout w' = stdout w ++ log ++
                ["INFO: Font tables use: " +:+ fmt_d (total_size (Fonts cfg)) +:+ " bytes";
                 "Writing output: " +:+ OutputSource cfg;
                 "Writing output: " +:+ OutputHeader cfg].
Proof.
  intros Hok. unfold processConfig.
  match goal with
  | |- context [foldM ?b _ ?st] => set (body := b); set (start := st)
  end.
  assert (Hloop : builds (foldM body (Fonts cfg) start)
            (fold_left (fun st f =>
                          (st.1 ++ Build.font_text (Config_init f.1) (page_image f.2)
                                     (char_glyphs f.2),
                           st.2 ++ makeFontStyleHeader (Config_init f.1)))
                       (Fonts cfg) start)
            (total_size (Fonts cfg))
            (mjoin ((fun f =>
                       ["Reading font description: " +:+ Config.font_input (Config_init f.1);
                        "Reading font bitmap: " +:+ page_file f.2] ++
                       mjoin (Build.bitmap_out (Config_init f.1) (char_glyphs f.2)
                                <$> Build.codes (Config_init f.1))) <$> Fonts cfg))
            (mjoin ((fun f =>
                       mjoin (Build.bitmap_trace (Config_init f.1) (char_glyphs f.2)
                                <$> Build.codes (Config_init f.1))) <$> Fonts cfg))).
  { apply (builds_foldM body _ (fun f => Build.font_size (Config_init f.1))).
    intros [source header] [sec font] Hf. unfold body.
    apply (builds_bind_ret _ (fun t => (source ++ t, header ++ _))).
    rewrite Forall_forall in Hok. destruct (Hok _ Hf) as (Hchr & Hne & Hdef).
    by apply makeFontSource_builds. }
  unfold bind at 1. unfold set_total_ram at 1. unfold bind at 1. rewrite Hloop.
  rewrite (fold_left_pair
             (fun f => Build.font_text (Config_init f.1) (page_image f.2) (char_glyphs f.2))
             (fun f => makeFontStyleHeader (Config_init f.1))).
  eexists _, (mjoin ((fun f =>
                       ["Reading font description: " +:+ Config.font_input (Config_init f.1);
                        "Reading font bitmap: " +:+ page_file f.2] ++
                       mjoin (Build.bitmap_out (Config_init f.1) (char_glyphs f.2)
                                <$> Build.codes (Config_init f.1))) <$> Fonts cfg)).
  split; [reflexivity|]. simpl.
  split; [|split; [lia|]].
  - unfold source_text, header_text. simpl. rewrite <- app_assoc. reflexivity.
  - rewrite Z.add_0_l, <- !app_assoc. reflexivity.
Qed.

Lemma processConfig_output_witness :
  exists w' log,
    processConfig (Build_ConfigFile "f.h" "f.c" [(Demo.secAC, Demo.font)]) Demo.w0
      = (Ok tt, w') /\
    files w' = [("f.c", render (source_text
                                  (Build_ConfigFile "f.h" "f.c" [(Demo.secAC, Demo.font)])));
                ("f.h", render (header_text
                                  (Build_ConfigFile "f.h" "f.c" [(Demo.secAC, Demo.font)])))] /\
    total_ram w' = 6 /\
    stdout w' = log ++ ["INFO: Font tables use: 6 bytes";
                        "Writing output: f.c"; "Writing output: f.h"].
Proof.
  destruct (processConfig_output
              (Build_ConfigFile "f.h" "f.c" [(Demo.secAC, Demo.font)]) Demo.w0)
    as (w' & log & Hrun & Hfiles & Hram & Hout).
  - constructor; [|constructor]. split; [|split].
    + simpl. lia.
    + discriminate.
    + intros g Hg. by apply sheet_defined.
  - exists w', log. split; [exact Hrun|]. split; [exact Hfiles|]. split; [exact Hram|].
    exact Hout.
Defined.

(** ** The command line *)



(** ** The declaration of the font *)


